(** * biokit.taxonomy: the taxon record store and the views derived from it

    A shallow embedding of [biokit/taxonomy/taxonomy.py] (class [Taxonomy]):
    the flat-file parser ([load_records], [_interpret_record]), the lineage
    walker ([get_lineage], [get_lineage_and_rank], [_gen_lineage_and_rank]),
    the children scan ([get_children]) and the family-tree builder
    ([get_family_tree], [_get_family_tree_uniprot]); and of the class
    [Lineage], which prints a lineage.

    Conventions of the embedding.
    - Text is [string] over [ascii]: one character per code point below 256.
    - A Python dict with text keys (a parsed record) is a [gmap string string];
      [self.records], whose iteration order the children scan exposes, is an
      association list keyed by [Z] in insertion order (the order Python 3.7
      and later guarantee; Python 2 leaves it unspecified).
    - Methods are computations in the monad [M]: they read the environment
      (interpreter version, content of the flat file on disk), thread the
      instance state, append to the standard output, and end by returning,
      by raising an exception, or by running out of fuel (the recursion of
      the lineage walker and the [while] loop of the tree builder are the two
      places that take fuel).
    - The module says it [Should work for python2 and 3]; where the two
      interpreters differ ([err.message], the white-space classes) the
      embedding branches on [python].
    - Outside the model: the FTP download of [_load_flat_file] (its result
      is the text [flat_file]), the Ensembl client, the browser, and the
      drawing of the progress bar (its ticks are recorded as output). *)

From stdpp Require Import prelude strings gmap pretty.
From Stdlib Require Import Ascii ZArith Lia.

Local Open Scope string_scope.
Local Open Scope Z_scope.
Local Open Scope list_scope.

(* ------------------------------------------------------------------ *)
(** ** Python values, exceptions and outcomes *)

Inductive interpreter := Py2 | Py3.

(** The values a caller passes as [taxon]: an [int], a [str], or any other
    object (known here by its printed form only). *)
Inductive pyval :=
| PInt (z : Z)
| PStr (s : string)
| PObject (repr : string).

Global Instance pyval_eq_dec : EqDecision pyval.
Proof. solve_decision. Defined.

Inductive exn :=
| KeyError (key : pyval)
| ValueError (message : string)
| TypeError (message : string)
| AttributeError (attribute : string)
| NameError (name : string).

Inductive outcome (A : Type) : Type :=
| Return (a : A)
| Raise (e : exn)
| OutOfFuel.
Global Arguments Return {A} a.
Global Arguments Raise {A} e.
Global Arguments OutOfFuel {A}.

Global Instance outcome_fmap : FMap outcome := λ A B f o,
  match o with
  | Return a => Return (f a)
  | Raise e => Raise e
  | OutOfFuel => OutOfFuel
  end.

(** What a run writes: [print] lines and ticks of the progress bar. *)
Inductive event :=
| Printed (line : string)
| Animated (i : nat).

(** A parsed record: the dict built by [_interpret_record]. *)
Abbreviation TaxonRecord := (gmap string string).

(** The lineage accumulator holds (scientific name, rank) pairs. *)
Abbreviation lineage_item := (string * string)%type.

(** The state the methods can reach: the attributes [records] and [verbose]
    of the instance, and the one list object created when
    [def _gen_lineage_and_rank(self, taxon, lineage_rank=[])] was executed,
    which every call that omits the argument shares. *)
Record Taxonomy := mkTaxonomy {
  records : list (Z * TaxonRecord);
  verbose : bool;
  lineage_rank_default : list lineage_item
}.

(** What the methods read from outside: the interpreter, and the text of
    [taxonomy.dat] as [_load_flat_file] leaves it on disk. *)
Record env := mkEnv {
  python : interpreter;
  flat_file : string
}.

Definition M (A : Type) : Type :=
  env → Taxonomy → outcome A * Taxonomy * list event.

Global Instance M_ret : MRet M := λ A a _ self, (Return a, self, []).

Global Instance M_bind : MBind M := λ A B f m E self,
  match m E self with
  | (Return a, self', out) =>
      let '(r, self'', out') := f a E self' in (r, self'', out ++ out')
  | (Raise e, self', out) => (Raise e, self', out)
  | (OutOfFuel, self', out) => (OutOfFuel, self', out)
  end.

Definition raise {A} (e : exn) : M A := λ _ self, (Raise e, self, []).
Definition out_of_fuel {A} : M A := λ _ self, (OutOfFuel, self, []).
Definition lift {A} (o : outcome A) : M A := λ _ self, (o, self, []).

(** [try: body except Exception as err: handler err]. *)
Definition try_except {A} (body : M A) (handler : exn → M A) : M A :=
  λ E self,
  match body E self with
  | (Raise e, self', out) =>
      let '(r, self'', out') := handler e E self' in (r, self'', out ++ out')
  | other => other
  end.

Definition print (line : string) : M unit :=
  λ _ self, (Return tt, self, [Printed line]).
Definition animate (i : nat) : M unit :=
  λ _ self, (Return tt, self, [Animated i]).

Definition interpreter_version : M interpreter :=
  λ E self, (Return (python E), self, []).
Definition read_flat_file : M string :=
  λ E self, (Return (flat_file E), self, []).

Definition get_records : M (list (Z * TaxonRecord)) :=
  λ _ self, (Return (records self), self, []).
Definition set_records (rs : list (Z * TaxonRecord)) : M unit :=
  λ _ self,
  (Return tt, mkTaxonomy rs (verbose self) (lineage_rank_default self), []).
Definition get_verbose : M bool :=
  λ _ self, (Return (verbose self), self, []).
Definition get_default : M (list lineage_item) :=
  λ _ self, (Return (lineage_rank_default self), self, []).
Definition set_default (l : list lineage_item) : M unit :=
  λ _ self, (Return tt, mkTaxonomy (records self) (verbose self) l, []).

(* ------------------------------------------------------------------ *)
(** ** Text: character classes, [strip], [split], [str] and [int] *)

Definition newline : string := String "010" "".

(** White space as [\s] and [str.strip] see it: the six ASCII blanks,
    and on Python 3 (text is Unicode there) the separators 28..31, NEL and
    the no-break space as well. *)
Definition is_space (py : interpreter) (c : ascii) : bool :=
  let n := nat_of_ascii c in
  ((9 <=? n) && (n <=? 13))%nat || (n =? 32)%nat ||
  match py with
  | Py2 => false
  | Py3 => ((28 <=? n) && (n <=? 31))%nat || (n =? 133)%nat || (n =? 160)%nat
  end.

(** The blanks [int] accepts around a literal: characters below 127 are
    taken as they are, so of the Python 3 additions only NEL and the
    no-break space count. *)
Definition is_int_space (py : interpreter) (c : ascii) : bool :=
  let n := nat_of_ascii c in
  ((9 <=? n) && (n <=? 13))%nat || (n =? 32)%nat ||
  match py with
  | Py2 => false
  | Py3 => (n =? 133)%nat || (n =? 160)%nat
  end.

Definition is_digit (c : ascii) : bool :=
  let n := nat_of_ascii c in ((48 <=? n) && (n <=? 57))%nat.

Definition not_newline (c : ascii) : bool :=
  negb (nat_of_ascii c =? 10)%nat.

(** Dropping the leading, the trailing, and both runs of blanks. *)
Fixpoint lstrip_with (blank : ascii → bool) (s : string) : string :=
  match s with
  | String c s' => if blank c then lstrip_with blank s' else s
  | EmptyString => EmptyString
  end.

Definition rstrip_with (blank : ascii → bool) (s : string) : string :=
  String.rev (lstrip_with blank (String.rev s)).

Definition strip_with (blank : ascii → bool) (s : string) : string :=
  rstrip_with blank (lstrip_with blank s).

(** [s.strip()] *)
Definition strip (py : interpreter) (s : string) : string :=
  strip_with (is_space py) s.

(** [s.split(sep)] for a non-empty [sep]: [skip] counts the characters of a
    separator occurrence still to be passed over, [cur] holds the current
    piece in reverse. *)
Fixpoint split_go (sep : string) (skip : nat) (cur s : string) : list string :=
  match s with
  | EmptyString => [String.rev cur]
  | String c s' =>
      match skip with
      | S k => split_go sep k cur s'
      | O =>
          if String.prefix sep s
          then String.rev cur :: split_go sep (String.length sep - 1) "" s'
          else split_go sep O (String c cur) s'
      end
  end.

Definition split (sep s : string) : list string := split_go sep O "" s.

(** [str(v)] *)
Definition py_str (v : pyval) : string :=
  match v with
  | PInt z => pretty z
  | PStr s => s
  | PObject repr => repr
  end.

Definition digit_value (c : ascii) : Z := Z.of_nat (nat_of_ascii c) - 48.

(** The digits of an [int] literal: at least one, and on Python 3 single
    underscores between digits. *)
Fixpoint int_digits (py : interpreter) (acc : Z) (after_digit : bool)
    (s : string) : option Z :=
  match s with
  | EmptyString => if after_digit then Some acc else None
  | String c s' =>
      if is_digit c then int_digits py (10 * acc + digit_value c) true s'
      else if Ascii.eqb c "_" && after_digit then
        match py with
        | Py3 => int_digits py acc false s'
        | Py2 => None
        end
      else None
  end.

(** [int(s)] for text: blanks around, an optional sign, digits. *)
Definition int_of_text (py : interpreter) (s : string) : outcome Z :=
  let parsed :=
    match strip_with (is_int_space py) s with
    | String c t =>
        if Ascii.eqb c "-" then Z.opp <$> int_digits py 0 false t
        else if Ascii.eqb c "+" then int_digits py 0 false t
        else int_digits py 0 false (String c t)
    | EmptyString => None
    end in
  match parsed with
  | Some z => Return z
  | None => Raise (ValueError ("invalid literal for int() with base 10: " +:+ s))
  end.

(** [int(v)] *)
Definition py_int (py : interpreter) (v : pyval) : outcome Z :=
  match v with
  | PInt z => Return z
  | PStr s => int_of_text py s
  | PObject _ => Raise (TypeError "int() argument must be a string or a number")
  end.

(** [err.message]: an attribute of every exception on Python 2, of none of
    the built-in ones on Python 3. *)
Definition exn_message (e : exn) : M string :=
  py ← interpreter_version;
  match py with
  | Py2 =>
      mret match e with
           | KeyError key => py_str key
           | ValueError m | TypeError m => m
           | AttributeError a => a
           | NameError n => n
           end
  | Py3 => raise (AttributeError "message")
  end.

(* ------------------------------------------------------------------ *)
(** ** Regular expressions: the fragment the four patterns use *)

(** Literal characters, one-character classes ([\s], [\d], [[^\n]]), greedy
    repetition of a class, sequencing and one capturing group. *)
Inductive regex :=
| Chr (c : ascii)
| Class (p : ascii → bool)
| Star (p : ascii → bool)
| Seq (r1 r2 : regex)
| Group (r : regex).

(** [p+] is [p] followed by [p*]. *)
Definition Plus (p : ascii → bool) : regex := Seq (Class p) (Star p).

(** A run of literal characters followed by [r]. *)
Fixpoint Lit (s : string) (r : regex) : regex :=
  match s with
  | String c s' => Seq (Chr c) (Lit s' r)
  | EmptyString => r
  end.

(** Greedy [p*] with backtracking: take one more character when possible and
    fall back to the shorter run when the rest of the pattern fails. *)
Fixpoint star_class {A} (p : ascii → bool) (s : string)
    (k : string → option A) : option A :=
  match s with
  | String c s' =>
      if p c then
        match star_class p s' k with
        | Some a => Some a
        | None => k s
        end
      else k s
  | EmptyString => k s
  end.

(** Match [r] at the start of [s]; [g] is the text of group 1 so far and [k]
    the rest of the pattern, given what is left of the input. *)
Fixpoint rmatch (r : regex) (s : string) (g : string)
    (k : string → string → option string) : option string :=
  match r with
  | Chr c =>
      match s with
      | String x s' => if Ascii.eqb x c then k s' g else None
      | EmptyString => None
      end
  | Class p =>
      match s with
      | String x s' => if p x then k s' g else None
      | EmptyString => None
      end
  | Star p => star_class p s (λ s', k s' g)
  | Seq r1 r2 => rmatch r1 s g (λ s1 g1, rmatch r2 s1 g1 k)
  | Group r1 =>
      rmatch r1 s g
        (λ s1 _, k s1 (String.substring 0 (String.length s - String.length s1) s))
  end.

(** [pattern.search(s)]: the leftmost match, as the text [m.group(1)] of its
    group; [None] when the pattern matches nowhere. *)
Fixpoint re_search (r : regex) (s : string) : option string :=
  match rmatch r s "" (λ _ g, Some g) with
  | Some g => Some g
  | None =>
      match s with
      | String _ s' => re_search r s'
      | EmptyString => None
      end
  end.

(** [\s+\:\s*(item+)\s*], the tail the four patterns share. *)
Definition field_tail (py : interpreter) (item : ascii → bool) : regex :=
  Seq (Plus (is_space py))
    (Seq (Chr ":")
       (Seq (Star (is_space py))
          (Seq (Group (Plus item)) (Star (is_space py))))).

(** [re.compile('ID\s+\:\s*(\d+)\s*')] *)
Definition _child_match (py : interpreter) : regex :=
  Lit "ID" (field_tail py is_digit).
(** [re.compile('PARENT ID\s+\:\s*(\d+)\s*')] *)
Definition _parent_match (py : interpreter) : regex :=
  Lit "PARENT ID" (field_tail py is_digit).
(** [re.compile('RANK\s+\:\s*([^\n]+)\s*')] *)
Definition _rank_match (py : interpreter) : regex :=
  Lit "RANK" (field_tail py not_newline).
(** [re.compile('SCIENTIFIC NAME\s+\:\s*([^\n]+)\s*')] *)
Definition _name_match (py : interpreter) : regex :=
  Lit "SCIENTIFIC NAME" (field_tail py not_newline).

(* ------------------------------------------------------------------ *)
(** ** The record parser and the record store *)

(** [if m: data[key] = m.group(1)] *)
Definition set_if_match (key : string) (m : option string) (data : TaxonRecord)
    : TaxonRecord :=
  match m with
  | Some g => <[key := g]> data
  | None => data
  end.

Definition _interpret_record (py : interpreter) (record : string) : TaxonRecord :=
  let data : TaxonRecord := {["raw" := record]} in
  let data := set_if_match "id" (re_search (_child_match py) record) data in
  let data := set_if_match "parent" (re_search (_parent_match py) record) data in
  let data :=
    set_if_match "scientific_name" (re_search (_name_match py) record) data in
  let data := set_if_match "rank" (re_search (_rank_match py) record) data in
  data.

(** [d[k]] on [self.records] *)
Fixpoint store_lookup (k : Z) (d : list (Z * TaxonRecord)) : option TaxonRecord :=
  match d with
  | [] => None
  | (k', v) :: d' => if decide (k = k') then Some v else store_lookup k d'
  end.

(** [d[k] = v] on [self.records]: an existing key keeps its place, a new
    one goes last. *)
Fixpoint store_set (k : Z) (v : TaxonRecord) (d : list (Z * TaxonRecord))
    : list (Z * TaxonRecord) :=
  match d with
  | [] => [(k, v)]
  | (k', v') :: d' =>
      if decide (k = k') then (k, v) :: d' else (k', v') :: store_set k v d'
  end.

(** [d.keys()] *)
Definition store_keys (d : list (Z * TaxonRecord)) : list Z := d.*1.

(** [r[key]] on a parsed record *)
Definition getitem (r : TaxonRecord) (key : string) : M string :=
  match r !! key with
  | Some v => mret v
  | None => raise (KeyError (PStr key))
  end.

(** [self.records[k]] *)
Definition records_getitem (k : Z) : M TaxonRecord :=
  rs ← get_records;
  match store_lookup k rs with
  | Some r => mret r
  | None => raise (KeyError (PInt k))
  end.

(** [for i, x in enumerate(l): body] *)
Fixpoint for_enumerate {A} (body : nat → A → M unit) (i : nat) (l : list A)
    : M unit :=
  match l with
  | [] => mret tt
  | x :: l' => body i x;; for_enumerate body (S i) l'
  end.

(** One turn of the loop of [load_records] (lines 89-101). *)
Definition load_block (i : nat) (record : string) : M unit :=
  try_except
    (py ← interpreter_version;
     let dico := _interpret_record py record in
     id ← getitem dico "id";
     identifier ← lift (int_of_text py id);
     rs ← get_records;
     set_records (store_set identifier dico rs))
    (λ err,
       message ← exn_message err;
       print message;;
       print "Could not parse the following record Please fill bug report on http://github.com/biokit";;
       print record);;
  v ← get_verbose;
  if v : bool then animate (i + 1) else mret tt.

(** [load_records]: the download done by [_load_flat_file] is outside the
    model, its result is [flat_file]. *)
Definition load_records : M unit :=
  set_records [];;
  py ← interpreter_version;
  text ← read_flat_file;
  let data := split ("//" +:+ newline) (strip py text) in
  v ← get_verbose;
  (if v : bool then print "Loading all taxon records." else mret tt);;
  for_enumerate load_block 0 data.

(** [if len(self.records) == 0: self.load_records()] *)
Definition ensure_loaded : M unit :=
  rs ← get_records;
  if decide (length rs = 0%nat) then load_records else mret tt.

(* ------------------------------------------------------------------ *)
(** ** The lineage walker *)

(** The list object bound to [lineage_rank]: the shared default of the
    [def], or a list that only the current chain of calls holds. *)
Inductive lref :=
| SharedDefault
| Own (l : list lineage_item).

(** [lineage_rank.append(x)] *)
Definition list_append (r : lref) (x : lineage_item) : M lref :=
  match r with
  | Own l => mret (Own (l ++ [x]))
  | SharedDefault =>
      d ← get_default; set_default (d ++ [x]);; mret SharedDefault
  end.

(** [lineage_rank.reverse()] *)
Definition list_reverse (r : lref) : M lref :=
  match r with
  | Own l => mret (Own (reverse l))
  | SharedDefault =>
      d ← get_default; set_default (reverse d);; mret SharedDefault
  end.

(** Reading the items of the list object. *)
Definition list_contents (r : lref) : M (list lineage_item) :=
  match r with
  | Own l => mret l
  | SharedDefault => get_default
  end.

(** [_gen_lineage_and_rank(taxon, lineage_rank)]; [fuel] bounds the depth
    of the recursion. *)
Fixpoint _gen_lineage_and_rank (fuel : nat) (taxon : Z) (lineage_rank : lref)
    : M lref :=
  match fuel with
  | O => out_of_fuel
  | S fuel' =>
      ensure_loaded;;
      record ← records_getitem taxon;
      py ← interpreter_version;
      p ← getitem record "parent";
      parent ← lift (int_of_text py p);
      if decide (parent ≠ 0) then
        name ← getitem record "scientific_name";
        rank ← getitem record "rank";
        lineage_rank ← list_append lineage_rank (name, rank);
        _gen_lineage_and_rank fuel' parent lineage_rank
      else
        list_reverse lineage_rank
  end.

Definition get_lineage (fuel : nat) (taxon : pyval) : M (list string) :=
  py ← interpreter_version;
  taxon ← lift (py_int py taxon);
  lineage ← _gen_lineage_and_rank fuel taxon (Own []);
  lineage ← list_contents lineage;
  mret (lineage.*1).

Definition get_lineage_and_rank (fuel : nat) (taxon : pyval)
    : M (list lineage_item) :=
  py ← interpreter_version;
  taxon ← lift (py_int py taxon);
  lineage ← _gen_lineage_and_rank fuel taxon (Own []);
  list_contents lineage.

(* ------------------------------------------------------------------ *)
(** ** Children and the family tree *)

(** [[self.records[k] for k in self.records.keys()
       if self.records[k]['parent'] == taxon]] *)
Fixpoint select_children (taxon : string) (keys : list Z)
    : M (list TaxonRecord) :=
  match keys with
  | [] => mret []
  | k :: keys' =>
      r ← records_getitem k;
      p ← getitem r "parent";
      if decide (p = taxon) then
        child ← records_getitem k;
        rest ← select_children taxon keys';
        mret (child :: rest)
      else select_children taxon keys'
  end.

(** [[child['id'] for child in children]] *)
Fixpoint child_ids (children : list TaxonRecord) : M (list string) :=
  match children with
  | [] => mret []
  | child :: rest =>
      i ← getitem child "id";
      ids ← child_ids rest;
      mret (i :: ids)
  end.

Definition get_children (taxon : pyval) : M (list string) :=
  ensure_loaded;;
  let taxon := py_str taxon in
  rs ← get_records;
  children ← select_children taxon (store_keys rs);
  child_ids children.

(** The body of [for parent in children] (lines 250-253): the children of
    every [parent] join [new_children], the edges join [tree]. *)
Fixpoint expand_round (children new_children : list pyval)
    (tree : list (pyval * pyval)) : M (list pyval * list (pyval * pyval)) :=
  match children with
  | [] => mret (new_children, tree)
  | parent :: rest =>
      ids ← get_children parent;
      expand_round rest
        (new_children ++ (PStr <$> ids))
        (tree ++ ((λ this, (parent, PStr this)) <$> ids))
  end.

(** The [while len(children) != 0] loop (lines 248-256); [fuel] bounds the
    number of times its condition is evaluated. *)
Fixpoint family_tree_loop (fuel : nat) (limits : Z) (children : list pyval)
    (tree : list (pyval * pyval)) : M (list (pyval * pyval)) :=
  match fuel with
  | O => out_of_fuel
  | S fuel' =>
      if decide (length children ≠ 0%nat) then
        '(new_children, tree) ← expand_round children [] tree;
        (if decide (limits < Z.of_nat (length tree))
         then print "Reached limit number of nodes" else mret tt);;
        family_tree_loop fuel' limits new_children tree
      else mret tree
  end.

Definition _get_family_tree_uniprot (fuel : nat) (taxon : pyval) (limits : Z)
    : M (list (pyval * pyval)) :=
  family_tree_loop fuel limits [taxon] [].

(** The names bound at module level when a method body runs: the imports
    [os], [re], [biokitPATH] and the two classes. *)
Definition module_globals : list (string * pyval) :=
  [("os", PObject "<module os>"); ("re", PObject "<module re>");
   ("biokitPATH", PObject "<biokitPATH>");
   ("Taxonomy", PObject "<class Taxonomy>");
   ("Lineage", PObject "<class Lineage>")].

(** Evaluation of a name that is neither a local nor a built-in. *)
Definition load_global (name : string) : M pyval :=
  match list_find (λ b, b.1 = name) module_globals with
  | Some (_, (_, v)) => mret v
  | None => raise (NameError name)
  end.

(** [get_family_tree(taxon, limits)] (lines 217-243). Neither branch has a
    [return]: the tree built by the helper is dropped. *)
Definition get_family_tree (fuel : nat) (taxon : pyval) (limits : Z)
    : M unit :=
  method ← load_global "method";
  if decide (method = PStr "uniprot") then
    _ ← _get_family_tree_uniprot fuel taxon limits; mret tt
  else
    _ ← load_global "notImplementedError";
    raise (TypeError "exceptions must derive from BaseException").

(* ------------------------------------------------------------------ *)
(** ** The class [Lineage] *)

(** An item of the list a [Lineage] is built from: a name, as [get_lineage]
    returns them, or a tuple of texts, as [get_lineage_and_rank] returns
    them. *)
Inductive entry :=
| EntryText (s : string)
| EntryTuple (items : list string).

Record Lineage := mkLineage { lineage : list entry }.

(** [Lineage.__init__]: [self.lineage = lineage[:]] *)
Definition Lineage_init (l : list entry) : Lineage := mkLineage l.

(** ["%s\n" % this]: a tuple on the right is the argument list of the
    format, which has one conversion. *)
Definition format_line (this : entry) : outcome string :=
  match this with
  | EntryText s => Return (s +:+ newline)
  | EntryTuple [s] => Return (s +:+ newline)
  | EntryTuple [] => Raise (TypeError "not enough arguments for format string")
  | EntryTuple _ =>
      Raise (TypeError "not all arguments converted during string formatting")
  end.

(** [N*" "] *)
Fixpoint spaces (n : nat) : string :=
  match n with
  | O => ""
  | S n' => String " " (spaces n')
  end.

(** The loop of [Lineage.__str__] from index [i] on. *)
Fixpoint str_loop (i : nat) (items : list entry) (txt : string)
    : outcome string :=
  match items with
  | [] => Return txt
  | this :: rest =>
      match format_line this with
      | Return line => str_loop (S i) rest (txt +:+ (spaces i +:+ line))
      | Raise e => Raise e
      | OutOfFuel => OutOfFuel
      end
  end.

(** [Lineage.__str__] *)
Definition Lineage_str (self : Lineage) : outcome string :=
  str_loop 0 (lineage self) "".

(* ------------------------------------------------------------------ *)
(** ** Vocabulary of the statements *)

(** The outcome, the final state and the output of a run. *)
Definition result_of {A} (run : outcome A * Taxonomy * list event)
    : outcome A := run.1.1.
Definition state_of {A} (run : outcome A * Taxonomy * list event)
    : Taxonomy := run.1.2.
Definition output_of {A} (run : outcome A * Taxonomy * list event)
    : list event := run.2.

(** The same instance with another list in the shared default. *)
Definition with_default (d : list lineage_item) (self : Taxonomy) : Taxonomy :=
  mkTaxonomy (records self) (verbose self) d.

(** The walk of [_gen_lineage_and_rank] over a store that is already loaded,
    as a function of the store alone (lemma [gen_lineage_walk] relates the
    two). *)
Fixpoint walk (py : interpreter) (rs : list (Z * TaxonRecord)) (fuel : nat)
    (taxon : Z) (acc : list lineage_item) : outcome (list lineage_item) :=
  match fuel with
  | O => OutOfFuel
  | S fuel' =>
      match store_lookup taxon rs with
      | None => Raise (KeyError (PInt taxon))
      | Some r =>
          match r !! "parent" with
          | None => Raise (KeyError (PStr "parent"))
          | Some p =>
              match int_of_text py p with
              | Return parent =>
                  if decide (parent ≠ 0) then
                    match r !! "scientific_name", r !! "rank" with
                    | None, _ => Raise (KeyError (PStr "scientific_name"))
                    | Some _, None => Raise (KeyError (PStr "rank"))
                    | Some name, Some rank =>
                        walk py rs fuel' parent (acc ++ [(name, rank)])
                    end
                  else Return (reverse acc)
              | Raise e => Raise e
              | OutOfFuel => OutOfFuel
              end
          end
      end
  end.

(** [dangling py rs t n a]: following parent links from [t] for [n] steps,
    through records of [rs] whose parent is not the sentinel 0, one arrives
    at the identifier [a], which [rs] does not hold. *)
Inductive dangling (py : interpreter) (rs : list (Z * TaxonRecord))
    : Z → nat → Z → Prop :=
| dangling_absent t :
    store_lookup t rs = None → dangling py rs t 0 t
| dangling_parent t r p q n a :
    store_lookup t rs = Some r →
    r !! "parent" = Some p →
    int_of_text py p = Return q →
    q ≠ 0 →
    dangling py rs q n a →
    dangling py rs t (S n) a.

(** A computation that neither reads nor writes the shared default list:
    started with any other list there, it does the same and leaves that
    list in place. *)
Definition default_blind {A} (m : M A) : Prop :=
  ∀ E self d,
    m E (with_default d self) =
    let '(r, self', out) := m E self in (r, with_default d self', out).

(** A computation that leaves [self.verbose] as it was. *)
Definition keeps_verbose {A} (m : M A) : Prop :=
  ∀ E self, verbose (state_of (m E self)) = verbose self.

(** A computation is isolated from the shared default list and from the
    verbosity flag when it is blind to the first and keeps the second. *)
Definition isolated {A} (m : M A) : Prop := default_blind m ∧ keeps_verbose m.

(** What the condition of the first comprehension of [get_children] keeps
    of the record stored under [k]. *)
Definition child_of (rs : list (Z * TaxonRecord)) (taxon : string) (k : Z)
    : option TaxonRecord :=
  r ← store_lookup k rs;
  if decide (r !! "parent" = Some taxon) then Some r else None.

(** The same instance with another store. *)
Definition with_records (rs : list (Z * TaxonRecord)) (self : Taxonomy)
    : Taxonomy :=
  mkTaxonomy rs (verbose self) (lineage_rank_default self).

(** What one block does to the store when the loop of [load_records] gets
    past it: a block with an id joins the store (replacing the record that
    has its identifier), any other block leaves the store alone. *)
Definition store_block (py : interpreter) (rs : list (Z * TaxonRecord))
    (block : string) : list (Z * TaxonRecord) :=
  let dico := _interpret_record py block in
  match dico !! "id" with
  | Some id =>
      match int_of_text py id with
      | Return identifier => store_set identifier dico rs
      | _ => rs
      end
  | None => rs
  end.

(** Sample inputs. *)
Definition unlines (ls : list string) : string :=
  foldr (λ l s, l +:+ newline +:+ s) "" ls.

Definition mk_record (fields : list (string * string)) : TaxonRecord :=
  list_to_map fields.

(** root(id=1, parent=0) -> child(id=2, parent=1) -> grandchild(id=3,
    parent=2) *)
Definition chain_store : list (Z * TaxonRecord) :=
  [(1, mk_record [("id", "1"); ("parent", "0");
                  ("scientific_name", "root"); ("rank", "no rank")]);
   (2, mk_record [("id", "2"); ("parent", "1");
                  ("scientific_name", "Bacteria"); ("rank", "superkingdom")]);
   (3, mk_record [("id", "3"); ("parent", "2");
                  ("scientific_name", "Azorhizobium"); ("rank", "genus")])].

(** The chain continued by a fourth taxon below the grandchild. *)
Definition chain4_store : list (Z * TaxonRecord) :=
  chain_store ++
  [(4, mk_record [("id", "4"); ("parent", "3");
                  ("scientific_name", "Azorhizobium caulinodans");
                  ("rank", "species")])].

(** Root 1 with the children 2 and 3. *)
Definition fan_store : list (Z * TaxonRecord) :=
  [(1, mk_record [("id", "1"); ("parent", "0")]);
   (2, mk_record [("id", "2"); ("parent", "1")]);
   (3, mk_record [("id", "3"); ("parent", "1")])].

(** The same, and a record parsed from a block without a PARENT ID line. *)
Definition fan_store_orphan : list (Z * TaxonRecord) :=
  fan_store ++ [(4, mk_record [("id", "4"); ("scientific_name", "incertae")])].

(** A chain whose top record points at taxon 7, which is not stored. *)
Definition broken_store : list (Z * TaxonRecord) :=
  [(2, mk_record [("id", "2"); ("parent", "7");
                  ("scientific_name", "Bacteria"); ("rank", "superkingdom")]);
   (3, mk_record [("id", "3"); ("parent", "2");
                  ("scientific_name", "Azorhizobium"); ("rank", "genus")])].


Definition instance_of (rs : list (Z * TaxonRecord)) : Taxonomy :=
  mkTaxonomy rs false [].

(** The chain root -> Bacteria -> Azorhizobium as a flat file. *)
Definition corpus_chain : string :=
  unlines ["ID                        : 1";
           "PARENT ID                 : 0";
           "RANK                      : no rank";
           "SCIENTIFIC NAME           : root";
           "//";
           "ID                        : 2";
           "PARENT ID                 : 1";
           "RANK                      : superkingdom";
           "GC ID                     : 11";
           "SCIENTIFIC NAME           : Bacteria";
           "//";
           "ID                        : 3";
           "PARENT ID                 : 2";
           "RANK                      : genus";
           "SCIENTIFIC NAME           : Azorhizobium";
           "//"].

(** Three blocks, the middle one without any field line. *)
Definition corpus_bad_block : string :=
  unlines ["ID : 1"; "PARENT ID : 0"; "SCIENTIFIC NAME : root"; "//";
           "this block has no field line"; "//";
           "ID : 2"; "PARENT ID : 1"; "SCIENTIFIC NAME : Bacteria"].

(** Two blocks, the second without an ID line. *)
Definition corpus_no_id_line : string :=
  unlines ["ID : 1"; "PARENT ID : 0"; "SCIENTIFIC NAME : root"; "//";
           "PARENT ID : 1"; "SCIENTIFIC NAME : Bacteria"].

(** Every character of [s] is in the class [p]. *)
Fixpoint all_chars (p : ascii → bool) (s : string) : bool :=
  match s with
  | String c s' => p c && all_chars p s'
  | EmptyString => true
  end.


Definition starts_with_class (p : ascii → bool) (s : string) : bool :=
  match s with
  | String c _ => p c
  | EmptyString => false
  end.

(** The blocks [load_records] iterates over. *)
Definition corpus_blocks (E : env) : list string :=
  split ("//" +:+ newline) (strip (python E) (flat_file E)).

(** An entry of the store that the loader made from a block of the corpus:
    the record is the parse of the block, and the key is the number its id
    field denotes. *)
Definition loaded_entry (py : interpreter) (blocks : list string)
    (kr : Z * TaxonRecord) : Prop :=
  ∃ block i,
    block ∈ blocks ∧ kr.2 = _interpret_record py block ∧
    kr.2 !! "id" = Some i ∧ int_of_text py i = Return kr.1.

Definition store_ok (E : env) (rs : list (Z * TaxonRecord)) : Prop :=
  NoDup (store_keys rs) ∧ Forall (loaded_entry (python E) (corpus_blocks E)) rs.

(** Two taxa that are each other's parent. *)
Definition loop_store : list (Z * TaxonRecord) :=
  [(5, mk_record [("id", "5"); ("parent", "6");
                  ("scientific_name", "Ouro"); ("rank", "genus")]);
   (6, mk_record [("id", "6"); ("parent", "5");
                  ("scientific_name", "Boros"); ("rank", "genus")])].

(** [i] is the id field of a record of [rs] whose parent field is the text
    of [parent]. *)
Definition is_child_of (rs : list (Z * TaxonRecord)) (parent : pyval)
    (i : string) : Prop :=
  ∃ k r, store_lookup k rs = Some r ∧
         r !! "parent" = Some (py_str parent) ∧ r !! "id" = Some i.

(** An edge of a family tree grown from [root]: its child is a child of its
    parent in the store, and its parent is the root or the child of an edge
    of [tree]. *)
Definition edge_ok (rs : list (Z * TaxonRecord)) (root : pyval)
    (tree : list (pyval * pyval)) (e : pyval * pyval) : Prop :=
  (e.1 = root ∨ ∃ gp, (gp, e.1) ∈ tree) ∧
  ∃ i, e.2 = PStr i ∧ is_child_of rs e.1 i.

(** A run that comes after the output [out] of an earlier step. *)
Definition after {A} (out : list event)
    (run : outcome A * Taxonomy * list event)
    : outcome A * Taxonomy * list event :=
  (result_of run, state_of run, out ++ output_of run).

(** A [(name, rank)] pair as an item. *)
Definition pair_entry (item : lineage_item) : entry :=
  EntryTuple [item.1; item.2].


(** The text the loop adds for a list of names. *)
Fixpoint stairs (i : nat) (names : list string) : string :=
  match names with
  | [] => ""
  | name :: rest => spaces i +:+ name +:+ newline +:+ stairs (S i) rest
  end.

(** Proof steps shared by the lemmas below. *)
Ltac unfold_monad :=
  cbv [mbind M_bind mret M_ret raise out_of_fuel lift print animate
       interpreter_version read_flat_file get_records set_records
       get_verbose get_default set_default getitem records_getitem
       list_append list_reverse list_contents].
Ltac close_run :=
  cbn -[_gen_lineage_and_rank walk]; rewrite ?app_nil_r; done.

(* ------------------------------------------------------------------ *)
(** * Properties *)

(** ** Running computations *)

Lemma bind_run {A B} (m : M A) (f : A → M B) E self :
  (m ≫= f) E self =
  match m E self with
  | (Return a, self', out) =>
      let '(r, self'', out') := f a E self' in (r, self'', out ++ out')
  | (Raise e, self', out) => (Raise e, self', out)
  | (OutOfFuel, self', out) => (OutOfFuel, self', out)
  end.
Proof. reflexivity. Qed.

Lemma store_lookup_nonempty k rs (r : TaxonRecord) :
  store_lookup k rs = Some r → rs ≠ [].
Proof. by destruct rs. Qed.

Lemma ensure_loaded_nonempty E self :
  records self ≠ [] → ensure_loaded E self = (Return tt, self, []).
Proof.
  intros Hne. unfold ensure_loaded. rewrite bind_run. simpl.
  destruct (records self) as [|kv rs]; [done|]. reflexivity.
Qed.

(* ------------------------------------------------------------------ *)
(** ** Isolation from the shared default accumulator *)

Lemma isolated_intro {A} (m : M A) :
  (∀ E self d,
     m E (with_default d self) =
       (let '(r, self', out) := m E self in (r, with_default d self', out)) ∧
     verbose (state_of (m E self)) = verbose self) →
  isolated m.
Proof. intros H. split; intros E self; [intros d|]; apply H; exact []. Qed.

Ltac isolated_prim :=
  apply isolated_intro; intros ? [? ? ?] ?; split; reflexivity.

Lemma isolated_ret {A} (a : A) : isolated (mret a).
Proof. isolated_prim. Qed.
Lemma isolated_raise {A} e : isolated (raise (A:=A) e).
Proof. isolated_prim. Qed.
Lemma isolated_out_of_fuel {A} : isolated (out_of_fuel (A:=A)).
Proof. isolated_prim. Qed.
Lemma isolated_lift {A} (o : outcome A) : isolated (lift o).
Proof. isolated_prim. Qed.
Lemma isolated_print line : isolated (print line).
Proof. isolated_prim. Qed.
Lemma isolated_animate i : isolated (animate i).
Proof. isolated_prim. Qed.
Lemma isolated_interpreter_version : isolated interpreter_version.
Proof. isolated_prim. Qed.
Lemma isolated_read_flat_file : isolated read_flat_file.
Proof. isolated_prim. Qed.
Lemma isolated_get_records : isolated get_records.
Proof. isolated_prim. Qed.
Lemma isolated_set_records rs : isolated (set_records rs).
Proof. isolated_prim. Qed.
Lemma isolated_get_verbose : isolated get_verbose.
Proof. isolated_prim. Qed.

Lemma isolated_bind {A B} (m : M A) (f : A → M B) :
  isolated m → (∀ a, isolated (f a)) → isolated (m ≫= f).
Proof.
  intros [Hm Vm] Hf. apply isolated_intro. intros E self d.
  rewrite !bind_run, Hm. specialize (Vm E self). unfold state_of in *.
  destruct (m E self) as [[[a|e|] self'] out]; cbn in *; [|done..].
  destruct (Hf a) as [Hfa Vfa]. rewrite Hfa. specialize (Vfa E self').
  unfold state_of in Vfa.
  destruct (f a E self') as [[r self''] out']; cbn in *. split; congruence.
Qed.

Lemma isolated_try_except {A} (body : M A) handler :
  isolated body → (∀ e, isolated (handler e)) →
  isolated (try_except body handler).
Proof.
  intros [Hm Vm] Hf. apply isolated_intro. intros E self d.
  unfold try_except. rewrite Hm. specialize (Vm E self). unfold state_of in *.
  destruct (body E self) as [[[a|e|] self'] out]; cbn in *; [done| |done].
  destruct (Hf e) as [Hfa Vfa]. rewrite Hfa. specialize (Vfa E self').
  unfold state_of in Vfa.
  destruct (handler e E self') as [[r self''] out']; cbn in *. split; congruence.
Qed.

Create HintDb isolated.
#[local] Hint Resolve isolated_ret isolated_raise isolated_out_of_fuel
  isolated_lift isolated_print isolated_animate isolated_interpreter_version
  isolated_read_flat_file isolated_get_records isolated_set_records
  isolated_get_verbose : isolated.

Ltac isolated_auto :=
  repeat first
    [ progress auto with isolated
    | apply isolated_bind; [|intros ?]
    | apply isolated_try_except; [|intros ?]
    | match goal with
      | |- isolated (match ?x with _ => _ end) => destruct x
      end ].

Lemma isolated_getitem r key : isolated (getitem r key).
Proof. unfold getitem. isolated_auto. Qed.
Lemma isolated_records_getitem k : isolated (records_getitem k).
Proof. unfold records_getitem. isolated_auto. Qed.
Lemma isolated_exn_message e : isolated (exn_message e).
Proof. unfold exn_message. isolated_auto. Qed.
#[local] Hint Resolve isolated_getitem isolated_records_getitem
  isolated_exn_message : isolated.

Lemma isolated_load_block i record : isolated (load_block i record).
Proof. unfold load_block. isolated_auto. Qed.
#[local] Hint Resolve isolated_load_block : isolated.

Lemma isolated_for_enumerate {A} (body : nat → A → M unit) l :
  (∀ i x, isolated (body i x)) → ∀ i, isolated (for_enumerate body i l).
Proof.
  intros Hbody. induction l as [|x l IH]; intros i; cbn [for_enumerate].
  - isolated_auto.
  - apply isolated_bind; [apply Hbody|intros _; apply IH].
Qed.

Lemma isolated_load_records : isolated load_records.
Proof.
  unfold load_records. isolated_auto.
  apply isolated_for_enumerate. auto with isolated.
Qed.
#[local] Hint Resolve isolated_load_records : isolated.

Lemma isolated_ensure_loaded : isolated ensure_loaded.
Proof. unfold ensure_loaded. isolated_auto. Qed.
#[local] Hint Resolve isolated_ensure_loaded : isolated.

Lemma isolated_keeps_default {A} (m : M A) E self :
  isolated m →
  lineage_rank_default (state_of (m E self)) = lineage_rank_default self.
Proof.
  intros [Hb _]. specialize (Hb E self (lineage_rank_default self)).
  replace (with_default (lineage_rank_default self) self) with self in Hb
    by (by destruct self).
  unfold state_of. destruct (m E self) as [[r self'] out]; cbn in *.
  injection Hb as Hb. by rewrite Hb at 1.
Qed.

(** An isolated computation that leaves the store as it found it leaves
    the whole state as it found it. *)
Lemma isolated_same_state {A} (m : M A) E self :
  isolated m →
  records (state_of (m E self)) = records self →
  state_of (m E self) = self.
Proof.
  intros [Hb Hv] Hr. specialize (Hv E self).
  specialize (Hb E self (lineage_rank_default self)).
  replace (with_default (lineage_rank_default self) self) with self in Hb
    by (by destruct self).
  unfold state_of in *.
  destruct (m E self) as [[r self'] out]; cbn in *.
  injection Hb as Hb. destruct self, self'; cbn in *. unfold with_default in Hb.
  cbn in Hb. congruence.
Qed.

(* ------------------------------------------------------------------ *)
(** ** Loading the record store *)

Lemma int_of_text_finishes py s : int_of_text py s ≠ OutOfFuel.
Proof.
  unfold int_of_text.
  by match goal with |- context [match ?x with Some _ => _ | None => _ end] =>
    destruct x end.
Qed.

(** On Python 2 a turn of the loop always completes: the block is stored,
    or it is reported and the store stays as it was. *)
Lemma load_block_py2 i block text self :
  ∃ out,
    load_block i block (mkEnv Py2 text) self =
    (Return tt, with_records (store_block Py2 (records self) block) self, out) ∧
    (_interpret_record Py2 block !! "id" = None → Printed block ∈ out).
Proof.
  unfold load_block, store_block, try_except. rewrite bind_run.
  unfold_monad. cbn [python].
  destruct (_interpret_record Py2 block !! "id") as [id|] eqn:Hid.
  - pose proof (int_of_text_finishes Py2 id) as Hfin.
    destruct (int_of_text Py2 id) as [n|e|]; [| |done].
    + destruct self as [rs [] d]; eexists; (split; [reflexivity|done]).
    + unfold exn_message. unfold_monad. cbn [python].
      destruct self as [rs [] d]; eexists; (split; [reflexivity|done]).
  - unfold exn_message. unfold_monad. cbn [python].
    destruct self as [rs [] d]; eexists; (split; [reflexivity|]); intros _;
      cbn; set_solver.
Qed.

Lemma load_blocks_py2 text blocks : ∀ i self,
  ∃ out,
    for_enumerate load_block i blocks (mkEnv Py2 text) self =
    (Return tt,
     with_records (foldl (store_block Py2) (records self) blocks) self, out) ∧
    ∀ block, block ∈ blocks →
      _interpret_record Py2 block !! "id" = None → Printed block ∈ out.
Proof.
  induction blocks as [|block blocks IH]; intros i self.
  - exists []. split; [by destruct self|]. by intros ? ?%elem_of_nil.
  - cbn [for_enumerate foldl]. rewrite bind_run.
    destruct (load_block_py2 i block text self) as (out1 & -> & Hout1).
    destruct (IH (S i) (with_records (store_block Py2 (records self) block) self))
      as (out2 & -> & Hout2).
    exists (out1 ++ out2). split; [done|].
    intros b [->|Hb]%elem_of_cons Hid; apply elem_of_app; auto.
Qed.

(** X1. On Python 2 [load_records] completes on every corpus: the store it
    leaves is the blocks with an id folded in order, and the text of every
    block without an id has been printed. *)
Theorem load_records_py2_skips_bad_blocks text self :
  let run := load_records (mkEnv Py2 text) self in
  let blocks := split ("//" +:+ newline) (strip Py2 text) in
  result_of run = Return tt ∧
  records (state_of run) = foldl (store_block Py2) [] blocks ∧
  ∀ block, block ∈ blocks →
    _interpret_record Py2 block !! "id" = None →
    Printed block ∈ output_of run.
Proof.
  cbn zeta. unfold load_records. rewrite bind_run. cbn [set_records].
  rewrite bind_run. cbn [interpreter_version python].
  rewrite bind_run. cbn [read_flat_file flat_file].
  rewrite bind_run. cbn [get_verbose verbose].
  set (blocks := split _ _). set (self0 := mkTaxonomy [] _ _).
  destruct (load_blocks_py2 text blocks 0 self0) as (out & Hrun & Hout).
  destruct (verbose self); rewrite bind_run; cbn [print mret M_ret];
    rewrite Hrun; cbn; (split; [done|split; [done|]]).
  - intros b Hb Hid. right. auto.
  - auto.
Qed.

(** The corpus with a bad middle block on Python 2: the block is reported
    and the record after it is loaded. *)
Example load_records_py2_run :
  let run := load_records (mkEnv Py2 corpus_bad_block) (instance_of []) in
  result_of run = Return tt ∧
  store_keys (records (state_of run)) = [1; 2] ∧
  output_of run =
    [Printed "id";
     Printed "Could not parse the following record Please fill bug report on http://github.com/biokit";
     Printed ("this block has no field line" +:+ newline)].
Proof. vm_compute. done. Qed.

(** On Python 3 a turn of the loop either stores the block or ends in the
    [AttributeError] of the handler, and it does the latter when the block
    has no id. *)
Lemma load_block_py3 i block text self :
  ∃ self' out,
    (load_block i block (mkEnv Py3 text) self = (Return tt, self', out) ∧
     is_Some (_interpret_record Py3 block !! "id")) ∨
    load_block i block (mkEnv Py3 text) self =
    (Raise (AttributeError "message"), self', out).
Proof.
  unfold load_block, try_except. rewrite bind_run.
  unfold_monad. cbn [python].
  destruct (_interpret_record Py3 block !! "id") as [id|] eqn:Hid.
  - pose proof (int_of_text_finishes Py3 id) as Hfin.
    destruct (int_of_text Py3 id) as [n|e|]; [| |done].
    + destruct self as [rs [] d]; do 2 eexists; left; (split; [reflexivity|done]).
    + unfold exn_message. unfold_monad. cbn [python].
      do 2 eexists; right; reflexivity.
  - unfold exn_message. unfold_monad. cbn [python].
    do 2 eexists; right; reflexivity.
Qed.

Lemma load_blocks_py3 text blocks : ∀ i self,
  (∃ block, block ∈ blocks ∧ _interpret_record Py3 block !! "id" = None) →
  result_of (for_enumerate load_block i blocks (mkEnv Py3 text) self) =
  Raise (AttributeError "message").
Proof.
  induction blocks as [|block blocks IH]; intros i self (bad & Hin & Hbad).
  { by apply elem_of_nil in Hin. }
  cbn [for_enumerate]. rewrite bind_run.
  destruct (load_block_py3 i block text self) as (self' & out & [[-> Hid]| ->]);
    [|done].
  apply elem_of_cons in Hin as [->|Hin].
  { rewrite Hbad in Hid. by destruct Hid. }
  specialize (IH (S i) self' (ex_intro _ bad (conj Hin Hbad))).
  unfold result_of in *.
  by destruct (for_enumerate _ _ _ _ _) as [[r s] o]; cbn in *.
Qed.

(** X2. On Python 3 a corpus with a block that yields no id makes
    [load_records] end in the [AttributeError] raised by [err.message] in
    the handler. *)
Theorem load_records_py3_aborts text self :
  (∃ block, block ∈ split ("//" +:+ newline) (strip Py3 text) ∧
            _interpret_record Py3 block !! "id" = None) →
  result_of (load_records (mkEnv Py3 text) self) =
  Raise (AttributeError "message").
Proof.
  intros Hbad. unfold load_records. rewrite bind_run. cbn [set_records].
  rewrite bind_run. cbn [interpreter_version python].
  rewrite bind_run. cbn [read_flat_file flat_file].
  rewrite bind_run. cbn [get_verbose verbose].
  set (self0 := mkTaxonomy [] _ _).
  pose proof (load_blocks_py3 text _ 0 self0 Hbad) as Hrun.
  unfold result_of in *.
  destruct (verbose self); rewrite bind_run; cbn [print mret M_ret];
    by destruct (for_enumerate _ _ _ _ _) as [[r s] o]; cbn in *.
Qed.

Lemma load_records_py3_aborts_witness :
  result_of (load_records (mkEnv Py3 corpus_bad_block) (instance_of [])) =
  Raise (AttributeError "message").
Proof.
  apply (load_records_py3_aborts corpus_bad_block (instance_of [])).
  exists ("this block has no field line" +:+ newline).
  split; [|reflexivity]. vm_compute. repeat constructor.
Defined.

(** C3 (the code departs from the claim). On Python 3 the handler of the
    loop fails itself: for the corpus with a bad middle block the load ends
    in [AttributeError], nothing has been printed, and the record of the
    block after the bad one is not in the store. *)
Theorem load_records_py3_stops_at_bad_block :
  let run := load_records (mkEnv Py3 corpus_bad_block) (instance_of []) in
  result_of run = Raise (AttributeError "message") ∧
  store_keys (records (state_of run)) = [1] ∧
  output_of run = [].
Proof. vm_compute. done. Qed.

(** C4 (the code departs from the claim). A block without an ID line but
    with a PARENT ID line is not skipped: the pattern for the id matches
    inside [PARENT ID : 1], so the block is stored under its parent's
    identifier, where it replaces the record of that taxon. The corpus has
    the blocks [ID : 1 / PARENT ID : 0 / SCIENTIFIC NAME : root] and
    [PARENT ID : 1 / SCIENTIFIC NAME : Bacteria]. *)
Theorem load_records_keeps_block_without_id_line py :
  let block := "PARENT ID : 1" +:+ newline +:+ "SCIENTIFIC NAME : Bacteria" in
  let run := load_records (mkEnv py corpus_no_id_line) (instance_of []) in
  split ("//" +:+ newline) (strip py corpus_no_id_line) =
    [unlines ["ID : 1"; "PARENT ID : 0"; "SCIENTIFIC NAME : root"]; block] ∧
  re_search (_child_match py) block = Some "1" ∧
  run = (Return tt, instance_of [(1, _interpret_record py block)], []) ∧
  _interpret_record py block !! "scientific_name" = Some "Bacteria".
Proof. destruct py; vm_compute; done. Qed.

(* ------------------------------------------------------------------ *)
(** ** The lineage walker *)

Lemma gen_lineage_unfold fuel taxon lineage_rank :
  _gen_lineage_and_rank (S fuel) taxon lineage_rank =
  (ensure_loaded;;
   record ← records_getitem taxon;
   py ← interpreter_version;
   p ← getitem record "parent";
   parent ← lift (int_of_text py p);
   if decide (parent ≠ 0) then
     name ← getitem record "scientific_name";
     rank ← getitem record "rank";
     lineage_rank ← list_append lineage_rank (name, rank);
     _gen_lineage_and_rank fuel parent lineage_rank
   else
     list_reverse lineage_rank).
Proof. reflexivity. Qed.

Lemma walk_unfold py rs fuel taxon acc :
  walk py rs (S fuel) taxon acc =
      match store_lookup taxon rs with
      | None => Raise (KeyError (PInt taxon))
      | Some r =>
          match r !! "parent" with
          | None => Raise (KeyError (PStr "parent"))
          | Some p =>
              match int_of_text py p with
              | Return parent =>
                  if decide (parent ≠ 0) then
                    match r !! "scientific_name", r !! "rank" with
                    | None, _ => Raise (KeyError (PStr "scientific_name"))
                    | Some _, None => Raise (KeyError (PStr "rank"))
                    | Some name, Some rank =>
                        walk py rs fuel parent (acc ++ [(name, rank)])
                    end
                  else Return (reverse acc)
              | Raise e => Raise e
              | OutOfFuel => OutOfFuel
              end
          end
      end.
Proof. reflexivity. Qed.

(** Once the store is loaded, the walker computes [walk] and leaves the
    state alone. *)
Lemma gen_lineage_walk fuel : ∀ taxon acc E self self' out,
  ensure_loaded E self = (Return tt, self', out) →
  _gen_lineage_and_rank (S fuel) taxon (Own acc) E self =
  (Own <$> walk (python E) (records self') (S fuel) taxon acc, self', out).
Proof.
  induction fuel as [|fuel IH]; intros taxon acc E self self' out Hload.
  all: rewrite gen_lineage_unfold, bind_run, Hload, walk_unfold.
  all: unfold_monad.
  all: destruct (store_lookup taxon (records self')) as [r|] eqn:Hr;
    [|close_run].
  all: destruct (r !! "parent") as [p|]; [|close_run].
  all: destruct (int_of_text (python E) p) as [parent| |]; [|close_run..].
  all: destruct (decide (parent ≠ 0)); [|close_run].
  all: destruct (r !! "scientific_name") as [name|]; [|close_run].
  all: destruct (r !! "rank") as [rank|]; [|close_run].
  - cbn; by rewrite ?app_nil_r.
  - rewrite (IH _ _ _ self' self' []); [close_run|].
    apply ensure_loaded_nonempty. by eapply store_lookup_nonempty.
Qed.

(** The same for every way the load can end. *)
Lemma gen_lineage_run fuel taxon acc E self :
  _gen_lineage_and_rank (S fuel) taxon (Own acc) E self =
  match ensure_loaded E self with
  | (Return _, self', out) =>
      (Own <$> walk (python E) (records self') (S fuel) taxon acc, self', out)
  | (Raise e, self', out) => (Raise e, self', out)
  | (OutOfFuel, self', out) => (OutOfFuel, self', out)
  end.
Proof.
  destruct (ensure_loaded E self) as [[[[]|e|] self'] out] eqn:Hload.
  - by apply gen_lineage_walk.
  - by rewrite gen_lineage_unfold, bind_run, Hload.
  - by rewrite gen_lineage_unfold, bind_run, Hload.
Qed.

Lemma get_lineage_and_rank_run fuel taxon E self :
  get_lineage_and_rank (S fuel) taxon E self =
  match py_int (python E) taxon with
  | Return t =>
      match ensure_loaded E self with
      | (Return _, self', out) =>
          (walk (python E) (records self') (S fuel) t [], self', out)
      | (Raise e, self', out) => (Raise e, self', out)
      | (OutOfFuel, self', out) => (OutOfFuel, self', out)
      end
  | Raise e => (Raise e, self, [])
  | OutOfFuel => (OutOfFuel, self, [])
  end.
Proof.
  unfold get_lineage_and_rank.
  rewrite bind_run. cbn [interpreter_version].
  rewrite bind_run. cbn [lift].
  destruct (py_int (python E) taxon) as [t|e|]; [|done..].
  rewrite bind_run, gen_lineage_run.
  destruct (ensure_loaded E self) as [[[[]|e|] self'] out]; [|done..].
  unfold_monad. destruct (walk _ _ _ _ _); close_run.
Qed.

Lemma get_lineage_run fuel taxon E self :
  get_lineage (S fuel) taxon E self =
  match py_int (python E) taxon with
  | Return t =>
      match ensure_loaded E self with
      | (Return _, self', out) =>
          ((λ l : list lineage_item, l.*1) <$>
             walk (python E) (records self') (S fuel) t [], self', out)
      | (Raise e, self', out) => (Raise e, self', out)
      | (OutOfFuel, self', out) => (OutOfFuel, self', out)
      end
  | Raise e => (Raise e, self, [])
  | OutOfFuel => (OutOfFuel, self, [])
  end.
Proof.
  unfold get_lineage.
  rewrite bind_run. cbn [interpreter_version].
  rewrite bind_run. cbn [lift].
  destruct (py_int (python E) taxon) as [t|e|]; [|done..].
  rewrite bind_run, gen_lineage_run.
  destruct (ensure_loaded E self) as [[[[]|e|] self'] out]; [|done..].
  unfold_monad. destruct (walk _ _ _ _ _); close_run.
Qed.

Lemma get_lineage_and_rank_loaded fuel taxon t E self self' out :
  py_int (python E) taxon = Return t →
  ensure_loaded E self = (Return tt, self', out) →
  get_lineage_and_rank (S fuel) taxon E self =
  (walk (python E) (records self') (S fuel) t [], self', out).
Proof. intros Ht Hload. by rewrite get_lineage_and_rank_run, Ht, Hload. Qed.

Lemma get_lineage_loaded fuel taxon t E self self' out :
  py_int (python E) taxon = Return t →
  ensure_loaded E self = (Return tt, self', out) →
  get_lineage (S fuel) taxon E self =
  ((λ l : list lineage_item, l.*1) <$>
     walk (python E) (records self') (S fuel) t [], self', out).
Proof. intros Ht Hload. by rewrite get_lineage_run, Ht, Hload. Qed.

Lemma int_of_text_digit py :
  int_of_text py "0" = Return 0 ∧ int_of_text py "1" = Return 1 ∧
  int_of_text py "2" = Return 2.
Proof. by destruct py. Qed.

(** From the corpus to the lineage: the first query on a new instance loads
    the flat file, then walks. *)
Example lineage_after_lazy_load :
  let E := mkEnv Py3 corpus_chain in
  let run := get_lineage 3 (PStr "3") E (instance_of []) in
  result_of run = Return ["Bacteria"; "Azorhizobium"] ∧
  store_keys (records (state_of run)) = [1; 2; 3] ∧
  output_of run = [].
Proof. vm_compute. done. Qed.

(** C8. For every store, the lineage of a taxon whose record has the root
    sentinel 0 as parent identifier is the empty sequence. The store is the
    one the query runs against, after the load that an empty store
    triggers. *)
Theorem lineage_of_root_is_empty E self self' out fuel taxon t r p :
  ensure_loaded E self = (Return tt, self', out) →
  py_int (python E) taxon = Return t →
  store_lookup t (records self') = Some r →
  r !! "parent" = Some p →
  int_of_text (python E) p = Return 0 →
  get_lineage (S fuel) taxon E self = (Return [], self', out).
Proof.
  intros Hload Ht Hr Hp H0.
  rewrite (get_lineage_loaded _ _ _ _ _ _ _ Ht Hload), walk_unfold.
  rewrite Hr, Hp, H0. reflexivity.
Qed.

Lemma lineage_of_root_is_empty_witness :
  get_lineage 1 (PInt 1) (mkEnv Py3 "") (instance_of chain_store) =
  (Return [], instance_of chain_store, []).
Proof.
  apply (lineage_of_root_is_empty (mkEnv Py3 "") (instance_of chain_store)
           (instance_of chain_store) [] 0 (PInt 1) 1
           (mk_record [("id", "1"); ("parent", "0");
                       ("scientific_name", "root"); ("rank", "no rank")])
           "0"); reflexivity.
Defined.

(** C5, as the code has it. In a store that holds the chain root(id=1,
    parent=0), child(id=2, parent=1), grandchild(id=3, parent=2), where
    child and grandchild carry a name and a rank, [get_lineage(3)] is
    [name of taxon 2; name of taxon 3]: oldest first, without the root's
    name and with the queried taxon's own name. *)
Theorem lineage_of_grandchild E self self' out fuel
    r1 r2 r3 name2 rank2 name3 rank3 :
  ensure_loaded E self = (Return tt, self', out) →
  store_lookup 1 (records self') = Some r1 →
  r1 !! "parent" = Some "0" →
  store_lookup 2 (records self') = Some r2 →
  r2 !! "parent" = Some "1" →
  r2 !! "scientific_name" = Some name2 →
  r2 !! "rank" = Some rank2 →
  store_lookup 3 (records self') = Some r3 →
  r3 !! "parent" = Some "2" →
  r3 !! "scientific_name" = Some name3 →
  r3 !! "rank" = Some rank3 →
  get_lineage (3 + fuel) (PInt 3) E self = (Return [name2; name3], self', out).
Proof.
  intros Hload H1 P1 H2 P2 N2 K2 H3 P3 N3 K3.
  destruct (int_of_text_digit (python E)) as (I0 & I1 & I2).
  change (3 + fuel)%nat with (S (S (S fuel))).
  rewrite (get_lineage_loaded _ (PInt 3) 3 _ _ _ _ eq_refl Hload).
  rewrite walk_unfold, H3, P3, I2, N3, K3, decide_True by done.
  rewrite walk_unfold, H2, P2, I1, N2, K2, decide_True by done.
  rewrite walk_unfold, H1, P1, I0, decide_False by (intros H; by apply H).
  reflexivity.
Qed.

Lemma lineage_of_grandchild_witness :
  get_lineage 3 (PInt 3) (mkEnv Py3 "") (instance_of chain_store) =
  (Return ["Bacteria"; "Azorhizobium"], instance_of chain_store, []).
Proof.
  eapply (lineage_of_grandchild (mkEnv Py3 "") (instance_of chain_store)
            (instance_of chain_store) [] 0); reflexivity.
Defined.

(** C5, as the claim has it, fails: on the chain store the answer is the
    names of taxa 2 and 3, not those of taxa 1 and 2. *)
Lemma lineage_of_grandchild_counterexample :
  result_of (get_lineage 3 (PInt 3) (mkEnv Py3 "") (instance_of chain_store))
  = Return ["Bacteria"; "Azorhizobium"] ∧
  store_lookup 1 chain_store ≫= (.!! "scientific_name") = Some "root" ∧
  store_lookup 2 chain_store ≫= (.!! "scientific_name") = Some "Bacteria" ∧
  Return ["Bacteria"; "Azorhizobium"] ≠ Return (A:=list string) ["root"; "Bacteria"].
Proof. repeat split; [reflexivity..|discriminate]. Qed.

(** Along a dangling chain the walk ends in a [KeyError]: for the absent
    identifier, or for a name or rank field that a record on the way
    lacks. *)
Lemma walk_dangling py rs t n a :
  dangling py rs t n a →
  ∀ fuel acc, (n < fuel)%nat →
  ∃ key, walk py rs fuel t acc = Raise (KeyError key) ∧
    (key = PInt a ∨
     (0 < n)%nat ∧ (key = PStr "scientific_name" ∨ key = PStr "rank")).
Proof.
  induction 1 as [t Ht|t r p q n a Hr Hp Hq Hq0 _ IH]; intros fuel acc Hfuel.
  - destruct fuel as [|fuel]; [lia|].
    exists (PInt t). rewrite walk_unfold, Ht. auto.
  - destruct fuel as [|fuel]; [lia|].
    rewrite walk_unfold, Hr, Hp, Hq, decide_True by done.
    destruct (r !! "scientific_name") as [name|].
    + destruct (r !! "rank") as [rank|].
      * destruct (IH fuel (acc ++ [(name, rank)])) as (key & -> & Hkey);
          [lia|].
        exists key. split; [done|]. destruct Hkey as [->|[_ ?]]; [auto|].
        right. split; [lia|done].
      * exists (PStr "rank"). split; [done|]. right. split; [lia|auto].
    + exists (PStr "scientific_name"). split; [done|].
      right. split; [lia|auto].
Qed.

(** C6. When the taxon identifier is absent from the store, or its chain
    of ancestors leads to an identifier that is absent, [get_lineage] raises
    a [KeyError] and returns nothing: the key is the absent identifier, or
    the name of a field missing from a record met on the way up. *)
Theorem lineage_of_unknown_taxon_raises E self self' out fuel taxon t n a :
  ensure_loaded E self = (Return tt, self', out) →
  py_int (python E) taxon = Return t →
  dangling (python E) (records self') t n a →
  (n < fuel)%nat →
  ∃ key,
    get_lineage fuel taxon E self = (Raise (KeyError key), self', out) ∧
    (key = PInt a ∨
     (0 < n)%nat ∧ (key = PStr "scientific_name" ∨ key = PStr "rank")).
Proof.
  intros Hload Ht Hd Hfuel.
  destruct fuel as [|fuel]; [lia|].
  rewrite (get_lineage_loaded _ _ _ _ _ _ _ Ht Hload).
  destruct (walk_dangling _ _ _ _ _ Hd (S fuel) [] Hfuel) as (key & -> & Hkey).
  by exists key.
Qed.

Lemma lineage_of_unknown_taxon_raises_witness :
  ∃ key,
    get_lineage 3 (PInt 3) (mkEnv Py3 "") (instance_of broken_store) =
    (Raise (KeyError key), instance_of broken_store, []) ∧
    (key = PInt 7 ∨
     (0 < 2)%nat ∧ (key = PStr "scientific_name" ∨ key = PStr "rank")).
Proof.
  apply (lineage_of_unknown_taxon_raises (mkEnv Py3 "")
           (instance_of broken_store) (instance_of broken_store) []
           3 (PInt 3) 3 2 7).
  - reflexivity.
  - reflexivity.
  - eapply (dangling_parent _ _ 3 _ "2" 2); [reflexivity..|discriminate|].
    eapply (dangling_parent _ _ 2 _ "7" 7); [reflexivity..|discriminate|].
    apply dangling_absent. reflexivity.
  - lia.
Defined.

Lemma isolated_get_lineage fuel taxon : isolated (get_lineage fuel taxon).
Proof.
  destruct fuel as [|fuel].
  { unfold get_lineage. cbn [_gen_lineage_and_rank]. isolated_auto. }
  destruct isolated_ensure_loaded as [Hb Hv].
  apply isolated_intro. intros E self d. rewrite !get_lineage_run.
  destruct (py_int (python E) taxon) as [t|e|];
    [|by destruct self..].
  rewrite Hb. specialize (Hv E self). unfold state_of in *.
  by destruct (ensure_loaded E self) as [[[[]|e|] self'] out].
Qed.

Lemma isolated_get_lineage_and_rank fuel taxon :
  isolated (get_lineage_and_rank fuel taxon).
Proof.
  destruct fuel as [|fuel].
  { unfold get_lineage_and_rank. cbn [_gen_lineage_and_rank]. isolated_auto. }
  destruct isolated_ensure_loaded as [Hb Hv].
  apply isolated_intro. intros E self d. rewrite !get_lineage_and_rank_run.
  destruct (py_int (python E) taxon) as [t|e|];
    [|by destruct self..].
  rewrite Hb. specialize (Hv E self). unfold state_of in *.
  by destruct (ensure_loaded E self) as [[[[]|e|] self'] out].
Qed.

(** C7. A public lineage call hands the walker a new empty list: it neither
    reads nor writes the list shared through the default argument (started
    with any other content there, it does the same and leaves that content
    in place), so nothing accumulated by one call reaches another; and a
    call that leaves the store as it found it can be repeated at once with
    the same outcome, state and output. *)
Theorem lineage_calls_share_no_accumulator fuel taxon :
  (default_blind (get_lineage fuel taxon) ∧
   default_blind (get_lineage_and_rank fuel taxon)) ∧
  ∀ E self,
    (lineage_rank_default (state_of (get_lineage fuel taxon E self)) =
       lineage_rank_default self ∧
     lineage_rank_default (state_of (get_lineage_and_rank fuel taxon E self)) =
       lineage_rank_default self) ∧
    (records (state_of (get_lineage fuel taxon E self)) = records self →
     get_lineage fuel taxon E (state_of (get_lineage fuel taxon E self)) =
     get_lineage fuel taxon E self) ∧
    (records (state_of (get_lineage_and_rank fuel taxon E self)) =
       records self →
     get_lineage_and_rank fuel taxon E
       (state_of (get_lineage_and_rank fuel taxon E self)) =
     get_lineage_and_rank fuel taxon E self).
Proof.
  pose proof (isolated_get_lineage fuel taxon) as Hl.
  pose proof (isolated_get_lineage_and_rank fuel taxon) as Hr.
  split; [split; [apply Hl|apply Hr]|]. intros E self. repeat split.
  - apply (isolated_keeps_default _ E self Hl).
  - apply (isolated_keeps_default _ E self Hr).
  - intros Hsame. by rewrite (isolated_same_state _ E self Hl Hsame).
  - intros Hsame. by rewrite (isolated_same_state _ E self Hr Hsame).
Qed.

Lemma lineage_calls_share_no_accumulator_witness :
  let E := mkEnv Py3 "" in
  let self := mkTaxonomy chain_store false [("left", "over")] in
  get_lineage 3 (PInt 3) E (state_of (get_lineage 3 (PInt 3) E self)) =
  get_lineage 3 (PInt 3) E self ∧
  result_of (get_lineage 3 (PInt 3) E self) =
  Return ["Bacteria"; "Azorhizobium"].
Proof.
  split; [|reflexivity].
  apply (lineage_calls_share_no_accumulator 3 (PInt 3)). reflexivity.
Defined.

(** The hazard the public calls avoid: run with the argument omitted, the
    walker appends to the shared list, and a second run returns the items of
    the first as well. *)
Example walker_with_default_argument_accumulates :
  let E := mkEnv Py3 "" in
  let run1 := _gen_lineage_and_rank 3 3 SharedDefault E (instance_of chain_store) in
  let run2 := _gen_lineage_and_rank 3 3 SharedDefault E (state_of run1) in
  lineage_rank_default (state_of run1) =
    [("Bacteria", "superkingdom"); ("Azorhizobium", "genus")] ∧
  lineage_rank_default (state_of run2) =
    [("Bacteria", "superkingdom"); ("Azorhizobium", "genus");
     ("Azorhizobium", "genus"); ("Bacteria", "superkingdom")].
Proof. split; reflexivity. Qed.

(* ------------------------------------------------------------------ *)
(** ** The children scan *)

Lemma store_lookup_key k rs (r : TaxonRecord) :
  store_lookup k rs = Some r → k ∈ store_keys rs.
Proof.
  unfold store_keys. induction rs as [|[k' v] rs IH]; cbn; [done|].
  destruct (decide (k = k')) as [->|]; intros H.
  - apply list_elem_of_here.
  - apply list_elem_of_further. auto.
Qed.

Lemma store_key_lookup k rs :
  k ∈ store_keys rs → is_Some (store_lookup k rs).
Proof.
  unfold store_keys. induction rs as [|[k' v] rs IH]; cbn.
  - by intros ?%elem_of_nil.
  - intros [->|H]%elem_of_cons; destruct (decide _); eauto; done.
Qed.

(** The scan fails at the first key whose record has no parent field. *)
Lemma select_children_parentless taxon E self keys :
  (∀ k, k ∈ keys → is_Some (store_lookup k (records self))) →
  (∃ k r, k ∈ keys ∧ store_lookup k (records self) = Some r ∧
          r !! "parent" = None) →
  select_children taxon keys E self =
  (Raise (KeyError (PStr "parent")), self, []).
Proof.
  induction keys as [|k keys IH]; intros Hall (k0 & r0 & Hin & Hk0 & Hp0).
  { by apply elem_of_nil in Hin. }
  cbn [select_children]. unfold_monad.
  destruct (Hall k) as [r Hr]; [apply list_elem_of_here|]. rewrite Hr.
  destruct (r !! "parent") as [p|] eqn:Hp; [|done].
  assert (k0 ∈ keys) as Hin'.
  { apply elem_of_cons in Hin as [->|]; [congruence|done]. }
  assert (select_children taxon keys E self =
          (Raise (KeyError (PStr "parent")), self, [])) as Hrest.
  { apply IH; [|by eauto].
    intros k' Hk'. apply Hall. by apply list_elem_of_further. }
  destruct (decide (p = taxon)); unfold_monad; by rewrite ?Hr, Hrest.
Qed.

Lemma select_children_all_parented taxon E self keys :
  (∀ k, k ∈ keys → ∃ r, store_lookup k (records self) = Some r ∧
                         is_Some (r !! "parent")) →
  select_children taxon keys E self =
  (Return (omap (child_of (records self) taxon) keys), self, []).
Proof.
  induction keys as [|k keys IH]; intros Hall; [done|].
  cbn [select_children omap list_omap]. unfold_monad.
  destruct (Hall k) as (r & Hr & p & Hp); [apply list_elem_of_here|].
  unfold child_of at 1. rewrite Hr, Hp. cbn [mbind option_bind].
  specialize (IH (λ k' Hk', Hall k' (list_elem_of_further _ _ _ Hk'))).
  destruct (decide (p = taxon)) as [->|Hne]; unfold_monad.
  - by rewrite decide_True, Hr, IH.
  - by rewrite decide_False, IH by congruence.
Qed.

Lemma child_ids_all_identified E self children :
  (∀ c, c ∈ children → is_Some (c !! "id")) →
  child_ids children E self =
  (Return (omap (.!! "id") children), self, []).
Proof.
  induction children as [|c cs IH]; intros Hall; [done|].
  cbn [child_ids omap list_omap]. unfold_monad.
  destruct (Hall c) as [i Hi]; [apply list_elem_of_here|]. rewrite Hi.
  rewrite IH by (intros c' Hc'; apply Hall; by apply list_elem_of_further).
  done.
Qed.

Lemma store_lookup_elem k rs (r : TaxonRecord) :
  store_lookup k rs = Some r → (k, r) ∈ rs.
Proof.
  induction rs as [|[k' v] rs IH]; cbn; [done|].
  destruct (decide (k = k')) as [->|]; intros H.
  - injection H as ->. apply list_elem_of_here.
  - apply list_elem_of_further. auto.
Qed.

Lemma get_children_loaded taxon E self self' out :
  ensure_loaded E self = (Return tt, self', out) →
  get_children taxon E self =
  let '(r, self'', out') :=
    (children ← select_children (py_str taxon) (store_keys (records self'));
     child_ids children) E self' in
  (r, self'', out ++ out').
Proof.
  intros Hload. unfold get_children. rewrite bind_run, Hload.
  rewrite bind_run. cbn [get_records].
  match goal with |- context [?m E self'] => destruct (m E self') as [[r s] o] end.
  done.
Qed.

(** C10. If the store holds a record without a parent field, every call of
    [get_children], whatever taxon it asks for, ends in
    [KeyError('parent')] raised by the scan. *)
Theorem get_children_fails_on_parentless_record E self taxon k r :
  store_lookup k (records self) = Some r →
  r !! "parent" = None →
  get_children taxon E self = (Raise (KeyError (PStr "parent")), self, []).
Proof.
  intros Hk Hp.
  rewrite (get_children_loaded taxon E self self []).
  - rewrite bind_run, select_children_parentless; [done| |].
    + intros k'. apply store_key_lookup.
    + exists k, r. split; [by eapply store_lookup_key|done].
  - apply ensure_loaded_nonempty. by eapply store_lookup_nonempty.
Qed.

Lemma get_children_fails_on_parentless_record_witness :
  get_children (PInt 2) (mkEnv Py3 "") (instance_of fan_store_orphan) =
  (Raise (KeyError (PStr "parent")), instance_of fan_store_orphan, []).
Proof.
  apply (get_children_fails_on_parentless_record (mkEnv Py3 "")
           (instance_of fan_store_orphan) (PInt 2) 4
           (mk_record [("id", "4"); ("scientific_name", "incertae")]));
    reflexivity.
Defined.

(** C9, as the code has it. When every record of the store has a parent
    field, and every record whose parent field is the text of the queried
    taxon has an id field, [get_children] returns the id fields of exactly
    the records whose parent field is [str(taxon)]. *)
Theorem get_children_of_parented_store E self self' out taxon :
  ensure_loaded E self = (Return tt, self', out) →
  Forall (λ kr, is_Some (kr.2 !! "parent")) (records self') →
  Forall (λ kr, kr.2 !! "parent" = Some (py_str taxon) →
                is_Some (kr.2 !! "id")) (records self') →
  ∃ ids,
    get_children taxon E self = (Return ids, self', out) ∧
    ∀ i, i ∈ ids ↔
      ∃ k r, store_lookup k (records self') = Some r ∧
             r !! "parent" = Some (py_str taxon) ∧ r !! "id" = Some i.
Proof.
  intros Hload Hparent Hid.
  rewrite (get_children_loaded _ _ _ _ _ Hload), bind_run. clear Hload.
  rewrite Forall_forall in Hparent. rewrite Forall_forall in Hid.
  exists (omap (.!! "id") (omap (child_of (records self') (py_str taxon))
            (store_keys (records self')))).
  split.
  - rewrite select_children_all_parented.
    + rewrite child_ids_all_identified; [by rewrite !app_nil_r|].
      intros c (k & _ & Hc)%list_elem_of_omap. unfold child_of in Hc.
      destruct (store_lookup k (records self')) as [r|] eqn:Hr; cbn in Hc; [|done].
      case_decide; [|done]. injection Hc as <-.
      by apply (Hid (k, r)); [apply store_lookup_elem|].
    + intros k [r Hr]%store_key_lookup. exists r. split; [done|].
      by apply (Hparent (k, r)), store_lookup_elem.
  - intros i. rewrite list_elem_of_omap. split.
    + intros (c & (k & _ & Hc)%list_elem_of_omap & Hi). unfold child_of in Hc.
      destruct (store_lookup k (records self')) as [r|] eqn:Hr; cbn in Hc; [|done].
      case_decide; [|done]. injection Hc as <-. by exists k, r.
    + intros (k & r & Hr & Hp & Hi). exists r. split; [|done].
      apply list_elem_of_omap. exists k.
      split; [by eapply store_lookup_key|].
      unfold child_of. rewrite Hr. cbn. by rewrite decide_True.
Qed.

Lemma get_children_of_parented_store_witness :
  ∃ ids,
    get_children (PInt 1) (mkEnv Py3 "") (instance_of fan_store) =
    (Return ids, instance_of fan_store, []) ∧
    ∀ i, i ∈ ids ↔
      ∃ k r, store_lookup k fan_store = Some r ∧
             r !! "parent" = Some "1" ∧ r !! "id" = Some i.
Proof.
  apply (get_children_of_parented_store (mkEnv Py3 "") (instance_of fan_store)
           (instance_of fan_store) [] (PInt 1)).
  - reflexivity.
  - repeat constructor; by eexists.
  - repeat constructor; intros _; by eexists.
Defined.

(** On the store of the example the list is ['2', '3']. *)
Example get_children_of_root :
  get_children (PInt 1) (mkEnv Py3 "") (instance_of fan_store) =
  (Return ["2"; "3"], instance_of fan_store, []).
Proof. reflexivity. Qed.

(** C9, as the claim has it, fails on a store in which root 1 has exactly
    the children 2 and 3 and a fourth record has no parent field: the call
    raises instead of returning the two identifiers. *)
Lemma get_children_counterexample :
  omap (λ kr : Z * TaxonRecord,
          if decide (kr.2 !! "parent" = Some "1") then Some kr.1 else None)
       fan_store_orphan = [2; 3] ∧
  get_children (PInt 1) (mkEnv Py3 "") (instance_of fan_store_orphan) =
  (Raise (KeyError (PStr "parent")), instance_of fan_store_orphan, []).
Proof. split; reflexivity. Qed.

(* ------------------------------------------------------------------ *)
(** ** The family tree *)

(** C1 (the code departs from the claim). With limit 1 on the chain
    1 -> 2 -> 3 -> 4, where every round adds one edge, the count exceeds the
    limit after the second round; the loop prints the diagnostic and goes
    on, and returns all three edges. *)
Theorem family_tree_runs_past_limit :
  _get_family_tree_uniprot 5 (PInt 1) 1 (mkEnv Py3 "")
    (instance_of chain4_store) =
  (Return [(PInt 1, PStr "2"); (PStr "2", PStr "3"); (PStr "3", PStr "4")],
   instance_of chain4_store,
   [Printed "Reached limit number of nodes";
    Printed "Reached limit number of nodes";
    Printed "Reached limit number of nodes"]).
Proof. vm_compute. done. Qed.

(** C2 (the code departs from the claim). [get_family_tree] returns no
    edge sequence: its first step evaluates the name [method], which is
    bound nowhere, so every call raises [NameError]. *)
Theorem get_family_tree_raises_name_error fuel taxon limits E self :
  get_family_tree fuel taxon limits E self =
  (Raise (NameError "method"), self, []).
Proof. reflexivity. Qed.

Lemma family_tree_loop_ignores_limits fuel limits1 limits2 :
  ∀ children tree E self,
    result_of (family_tree_loop fuel limits1 children tree E self) =
    result_of (family_tree_loop fuel limits2 children tree E self) ∧
    state_of (family_tree_loop fuel limits1 children tree E self) =
    state_of (family_tree_loop fuel limits2 children tree E self).
Proof.
  induction fuel as [|fuel IH]; intros children tree E self; [done|].
  cbn [family_tree_loop]. destruct (decide (length children ≠ 0%nat)); [|done].
  rewrite !bind_run.
  destruct (expand_round children [] tree E self)
    as [[[[new_children tree']|e|] self'] out]; [|done..].
  rewrite !bind_run. specialize (IH new_children tree' E self').
  unfold result_of, state_of in *.
  destruct (decide (limits1 < _)), (decide (limits2 < _));
    cbn [print mret M_ret];
    destruct (family_tree_loop fuel limits1 _ _ _ _) as [[r1 s1] o1],
             (family_tree_loop fuel limits2 _ _ _ _) as [[r2 s2] o2];
    exact IH.
Qed.

(** X3. The edges [_get_family_tree_uniprot] returns do not depend on
    [limits]: the limit only decides whether the diagnostic is printed. *)
Theorem family_tree_ignores_limits fuel taxon limits1 limits2 E self :
  result_of (_get_family_tree_uniprot fuel taxon limits1 E self) =
  result_of (_get_family_tree_uniprot fuel taxon limits2 E self).
Proof. apply family_tree_loop_ignores_limits. Qed.



(* ------------------------------------------------------------------ *)
(** ** The record parser *)

Lemma string_app_cons x (a b : string) :
  String x a +:+ b = String x (a +:+ b).
Proof. reflexivity. Qed.

Lemma string_app_assoc (a b c : string) : (a +:+ b) +:+ c = a +:+ (b +:+ c).
Proof.
  induction a as [|x a IH]; [done|]. by rewrite !string_app_cons, IH.
Qed.

Lemma string_app_length (a b : string) :
  String.length (a +:+ b) = (String.length a + String.length b)%nat.
Proof.
  induction a as [|x a IH]; [done|]. rewrite string_app_cons. cbn. by rewrite IH.
Qed.

Lemma substring_prefix (a b : string) :
  String.substring 0 (String.length a) (a +:+ b) = a.
Proof.
  induction a as [|x a IH]; [by destruct b|].
  rewrite string_app_cons. cbn. by rewrite IH.
Qed.







(** *** Decimal numerals *)











(** *** The fields of a parsed record *)

Lemma interpret_record_fields py block :
  let d := _interpret_record py block in
  d !! "raw" = Some block ∧
  d !! "id" = re_search (_child_match py) block ∧
  d !! "parent" = re_search (_parent_match py) block ∧
  d !! "scientific_name" = re_search (_name_match py) block ∧
  d !! "rank" = re_search (_rank_match py) block.
Proof.
  cbv zeta. unfold _interpret_record.
  destruct (re_search (_child_match py) block),
    (re_search (_parent_match py) block),
    (re_search (_name_match py) block),
    (re_search (_rank_match py) block);
    cbn [set_if_match]; split_and!; by simplify_map_eq.
Qed.


(** *** A block that begins with its ID line *)

(** The greedy star takes the whole run when the text after it cannot
    extend it and the rest of the pattern accepts that text. *)
Lemma star_class_greedy {A} p pre s1 (k : string → option A) a :
  all_chars p pre = true → starts_with_class p s1 = false →
  k s1 = Some a → star_class p (pre +:+ s1) k = Some a.
Proof.
  intros Hpre Hs1 Hk. induction pre as [|c pre IH].
  - change ("" +:+ s1) with s1.
    destruct s1 as [|c s1]; cbn in *; [done|]. by rewrite Hs1.
  - rewrite string_app_cons. cbn in *.
    apply andb_true_iff in Hpre as [-> Hpre]. by rewrite IH.
Qed.

Lemma star_class_const {A} p s (a : A) : star_class p s (λ _, Some a) = Some a.
Proof.
  induction s as [|c s IH]; cbn; [done|]. rewrite IH. by destruct (p c).
Qed.

Lemma rmatch_lit lbl r s g k :
  rmatch (Lit lbl r) (lbl +:+ s) g k = rmatch r s g k.
Proof.
  induction lbl as [|c lbl IH]; [done|].
  rewrite string_app_cons. cbn. by rewrite Ascii.eqb_refl.
Qed.

Lemma digit_not_space py c : is_digit c = true → is_space py c = false.
Proof.
  unfold is_digit, is_space. cbv zeta.
  generalize (nat_of_ascii c). intros n [H1 H2]%andb_true_iff.
  apply Nat.leb_le in H1, H2.
  assert ((n <=? 13)%nat = false) as -> by (apply Nat.leb_gt; lia).
  assert ((n <=? 31)%nat = false) as -> by (apply Nat.leb_gt; lia).
  assert ((n =? 32)%nat = false) as -> by (apply Nat.eqb_neq; lia).
  assert ((n =? 133)%nat = false) as -> by (apply Nat.eqb_neq; lia).
  assert ((n =? 160)%nat = false) as -> by (apply Nat.eqb_neq; lia).
  rewrite !andb_false_r. by destruct py.
Qed.

Lemma field_tail_at_head py item blanks1 blanks2 v rest :
  blanks1 ≠ "" → all_chars (is_space py) blanks1 = true →
  all_chars (is_space py) blanks2 = true →
  v ≠ "" → all_chars item v = true →
  starts_with_class (is_space py) v = false →
  starts_with_class item rest = false →
  rmatch (field_tail py item)
    (blanks1 +:+ ":" +:+ blanks2 +:+ v +:+ rest) "" (λ _ g, Some g) = Some v.
Proof.
  intros Hb1 Hsp1 Hsp2 Hv Hitem Hvsp Hrest.
  destruct blanks1 as [|x blanks1]; [done|].
  destruct v as [|y v]; [done|]. cbn in Hsp1, Hitem, Hvsp.
  apply andb_true_iff in Hsp1 as [Hx Hsp1].
  apply andb_true_iff in Hitem as [Hy Hitem].
  unfold field_tail, Plus. rewrite string_app_cons.
  cbn [rmatch]. rewrite Hx.
  apply star_class_greedy; [done|by destruct py|].
  rewrite string_app_cons. cbn [rmatch]. rewrite Ascii.eqb_refl.
  change ("" +:+ ?s) with s.
  apply star_class_greedy; [done|by rewrite string_app_cons|].
  rewrite string_app_cons. cbn [rmatch]. rewrite Hy.
  apply star_class_greedy; [done..|].
  change (String y (v +:+ rest)) with (String y v +:+ rest).
  rewrite string_app_length, Nat.add_sub, substring_prefix.
  apply star_class_const.
Qed.

Lemma re_search_at_head r s g :
  rmatch r s "" (λ _ g, Some g) = Some g → re_search r s = Some g.
Proof. intros H. destruct s; cbn; by rewrite H. Qed.

(** X6. A block that begins with its ID line ([ID], at least one blank, a
    colon, blanks, a run of digits that no digit follows) gets these digits
    as its [id], whatever comes after. *)
Theorem block_with_id_line_is_parsed py blanks1 blanks2 digits rest :
  blanks1 ≠ "" → all_chars (is_space py) blanks1 = true →
  all_chars (is_space py) blanks2 = true →
  digits ≠ "" → all_chars is_digit digits = true →
  starts_with_class is_digit rest = false →
  _interpret_record py
    ("ID" +:+ blanks1 +:+ ":" +:+ blanks2 +:+ digits +:+ rest) !! "id" =
  Some digits.
Proof.
  intros Hb1 Hsp1 Hsp2 Hd Hdigits Hrest.
  destruct (interpret_record_fields py
              ("ID" +:+ blanks1 +:+ ":" +:+ blanks2 +:+ digits +:+ rest))
    as (_ & -> & _).
  apply re_search_at_head. unfold _child_match. rewrite rmatch_lit.
  apply field_tail_at_head; try done.
  destruct digits as [|c digits]; [done|]. cbn in *.
  apply andb_true_iff in Hdigits as [Hc _]. by apply digit_not_space.
Qed.

Lemma block_with_id_line_is_parsed_witness :
  _interpret_record Py3
    ("ID" +:+ "   " +:+ ":" +:+ " " +:+ "9606" +:+
     (newline +:+ "PARENT ID : 9605")) !! "id" = Some "9606".
Proof.
  apply (block_with_id_line_is_parsed Py3 "   " " " "9606"
           (newline +:+ "PARENT ID : 9605")); done.
Defined.

(* ------------------------------------------------------------------ *)
(** ** The store a load leaves *)

(** *** The dict operations on the store *)

Lemma store_lookup_set k v rs k' :
  store_lookup k' (store_set k v rs) =
  if decide (k' = k) then Some v else store_lookup k' rs.
Proof.
  induction rs as [|[k0 v0] rs IH]; cbn.
  - by repeat case_decide.
  - destruct (decide (k = k0)) as [->|Hne]; cbn.
    + by repeat case_decide.
    + rewrite IH. repeat case_decide; congruence.
Qed.

Lemma store_set_keys k v rs :
  store_keys (store_set k v rs) =
  if decide (k ∈ store_keys rs) then store_keys rs else store_keys rs ++ [k].
Proof.
  unfold store_keys. induction rs as [|[k0 v0] rs IH]; cbn.
  - rewrite decide_False; [done|]. by intros ?%elem_of_nil.
  - destruct (decide (k = k0)) as [->|Hne]; cbn.
    + rewrite decide_True; [done|]. apply list_elem_of_here.
    + rewrite IH. destruct (decide (k ∈ rs.*1)) as [Hin|Hnin].
      * rewrite decide_True; [done|]. by apply list_elem_of_further.
      * rewrite decide_False; [done|].
        intros [?|?]%elem_of_cons; congruence.
Qed.

Lemma store_set_NoDup k v rs :
  NoDup (store_keys rs) → NoDup (store_keys (store_set k v rs)).
Proof.
  intros Hnd. rewrite store_set_keys. case_decide; [done|].
  apply NoDup_app. split_and!; [done| |apply NoDup_singleton].
  intros x Hx ->%list_elem_of_singleton. done.
Qed.

Lemma store_set_Forall (P : Z * TaxonRecord → Prop) k v rs :
  P (k, v) → Forall P rs → Forall P (store_set k v rs).
Proof.
  intros Hkv. induction 1 as [|[k0 v0] rs H0 Hrs IH]; cbn.
  - by constructor.
  - destruct (decide (k = k0)); by constructor.
Qed.

(** *** What every turn of the loop keeps *)

Lemma load_block_keeps_store_ok E i block self :
  block ∈ corpus_blocks E →
  store_ok E (records self) →
  store_ok E (records (state_of (load_block i block E self))).
Proof.
  intros Hblock Hok0. unfold load_block, try_except. rewrite bind_run.
  unfold exn_message. unfold_monad.
  destruct (_interpret_record (python E) block !! "id") as [id|] eqn:Hid.
  - destruct (int_of_text (python E) id) as [n|e|] eqn:Hn.
    + assert (store_ok E (store_set n (_interpret_record (python E) block)
                            (records self))) as Hok.
      { destruct Hok0 as [Hnd Hall]. split; [by apply store_set_NoDup|].
        apply store_set_Forall; [|done]. by exists block, id. }
      cbn [verbose]. destruct (verbose self); exact Hok.
    + destruct (python E); cbn [verbose]; destruct (verbose self); exact Hok0.
    + cbn [verbose]. destruct (verbose self); exact Hok0.
  - destruct (python E); cbn [verbose]; destruct (verbose self); exact Hok0.
Qed.

Lemma load_blocks_keep_store_ok E blocks : ∀ i self,
  (∀ block, block ∈ blocks → block ∈ corpus_blocks E) →
  store_ok E (records self) →
  store_ok E (records (state_of (for_enumerate load_block i blocks E self))).
Proof.
  induction blocks as [|block blocks IH]; intros i self Hsub Hok; [done|].
  cbn [for_enumerate]. rewrite bind_run.
  pose proof (load_block_keeps_store_ok E i block self
                (Hsub _ (list_elem_of_here _ _)) Hok) as Hok1.
  unfold state_of in *.
  destruct (load_block i block E self) as [[[[]|e|] self1] out1]; [|done..].
  specialize (IH (S i) self1 (λ b Hb, Hsub b (list_elem_of_further _ _ _ Hb)) Hok1).
  by destruct (for_enumerate load_block (S i) blocks E self1) as [[r s] o].
Qed.

(** X7. After [load_records], however it ends and whatever the instance
    held before, no identifier is stored twice, and every entry of the
    store is the parse of a block of the flat file, filed under the number
    its [id] field denotes. *)
Theorem loaded_store_is_indexed_by_id E self :
  let rs := records (state_of (load_records E self)) in
  NoDup (store_keys rs) ∧
  Forall (loaded_entry (python E) (corpus_blocks E)) rs.
Proof.
  cbv zeta. unfold load_records. rewrite bind_run. cbn [set_records].
  rewrite bind_run. cbn [interpreter_version].
  rewrite bind_run. cbn [read_flat_file].
  rewrite bind_run. cbn [get_verbose verbose].
  set (self0 := mkTaxonomy [] _ _).
  pose proof (load_blocks_keep_store_ok E (corpus_blocks E) 0 self0
                (λ _ H, H) (conj (NoDup_nil_2) (Forall_nil_2 _))) as Hok.
  unfold state_of, corpus_blocks in *.
  destruct (verbose self); rewrite bind_run; cbn [print mret M_ret];
    by destruct (for_enumerate _ _ _ _ _) as [[[[]|?|] s] o].
Qed.

(** *** Reloading *)

Lemma isolated_state {A} (m : M A) E self :
  isolated m →
  state_of (m E self) = with_records (records (state_of (m E self))) self.
Proof.
  intros Hm. pose proof (isolated_keeps_default m E self Hm) as Hd.
  destruct Hm as [_ Hv]. specialize (Hv E self).
  destruct (state_of (m E self)) as [rs v d]. cbn in *.
  unfold with_records. by rewrite Hv, Hd.
Qed.

(** X8. [load_records] does not depend on the records the instance holds
    when it is called, so loading twice is loading once: the second run
    ends as the first did, with the same store and the same output. *)
Theorem load_records_replaces_the_store E self rs :
  load_records E (with_records rs self) = load_records E self ∧
  load_records E (state_of (load_records E self)) = load_records E self.
Proof.
  assert (∀ rs', load_records E (with_records rs' self) = load_records E self)
    as Hreplace.
  { intros rs'. unfold load_records. by rewrite !(bind_run (set_records [])). }
  split; [apply Hreplace|].
  rewrite (isolated_state _ E self isolated_load_records). apply Hreplace.
Qed.

(* ------------------------------------------------------------------ *)
(** ** Lineages, one step at a time *)

Lemma outcome_fmap_compose {A B C} (f : A → B) (g : B → C) (o : outcome A) :
  g <$> (f <$> o) = (g ∘ f) <$> o.
Proof. by destruct o. Qed.

Lemma outcome_fmap_ext {A B} (f g : A → B) (o : outcome A) :
  (∀ a, f a = g a) → f <$> o = g <$> o.
Proof. intros H. destruct o; cbn; by rewrite ?H. Qed.

(** X9. [get_lineage] is [get_lineage_and_rank] with the ranks dropped:
    same exception if any, same final state, same output, and on return
    the first components of the pairs, in order. *)
Theorem get_lineage_is_names_of_get_lineage_and_rank fuel taxon E self :
  get_lineage fuel taxon E self =
  let '(r, self', out) := get_lineage_and_rank fuel taxon E self in
  ((λ l : list lineage_item, l.*1) <$> r, self', out).
Proof.
  destruct fuel as [|fuel].
  - unfold get_lineage, get_lineage_and_rank. rewrite !bind_run.
    cbn [interpreter_version lift].
    by destruct (py_int (python E) taxon).
  - rewrite get_lineage_run, get_lineage_and_rank_run.
    destruct (py_int (python E) taxon); [|done..].
    by destruct (ensure_loaded E self) as [[[[]|e|] self'] out].
Qed.

(** The accumulator only adds a fixed tail to what the walk returns. *)
Lemma walk_accumulator py rs fuel : ∀ taxon acc,
  walk py rs fuel taxon acc =
  (λ l, l ++ reverse acc) <$> walk py rs fuel taxon [].
Proof.
  induction fuel as [|fuel IH]; intros taxon acc; [done|].
  rewrite !walk_unfold.
  destruct (store_lookup taxon rs) as [r|]; [|done].
  destruct (r !! "parent") as [p|]; [|done].
  destruct (int_of_text py p) as [parent| |]; [|done..].
  destruct (decide (parent ≠ 0)); [|done].
  destruct (r !! "scientific_name") as [name|]; [|done].
  destruct (r !! "rank") as [rank|]; [|done].
  rewrite (IH parent (acc ++ _)), (IH parent ([] ++ _)).
  rewrite outcome_fmap_compose. apply outcome_fmap_ext. intros l. cbn.
  rewrite reverse_app, reverse_singleton. cbn.
  by rewrite <-app_assoc.
Qed.

(** X10. For a taxon whose record has a parent other than 0, a name and
    a rank, the lineage is the lineage of the parent followed by the name
    of the taxon itself (the parent's walk takes one step less). *)
Theorem lineage_extends_parent_lineage
    E self self' out fuel taxon t r p parent name rank :
  ensure_loaded E self = (Return tt, self', out) →
  py_int (python E) taxon = Return t →
  store_lookup t (records self') = Some r →
  r !! "parent" = Some p →
  int_of_text (python E) p = Return parent →
  parent ≠ 0 →
  r !! "scientific_name" = Some name →
  r !! "rank" = Some rank →
  get_lineage (S fuel) taxon E self =
  ((λ l, l ++ [name]) <$> result_of (get_lineage fuel (PInt parent) E self'),
   self', out).
Proof.
  intros Hload Ht Hr Hp Hparent Hne Hname Hrank.
  rewrite (get_lineage_loaded _ _ _ _ _ _ _ Ht Hload), walk_unfold.
  rewrite Hr, Hp, Hparent, decide_True, Hname, Hrank by done.
  f_equal. f_equal. destruct fuel as [|fuel]; [done|].
  rewrite (get_lineage_loaded fuel (PInt parent) parent E self' self' [] eq_refl).
  2:{ apply ensure_loaded_nonempty. by eapply store_lookup_nonempty. }
  rewrite (walk_accumulator _ _ _ _ ([] ++ [(name, rank)])).
  unfold result_of.
  destruct (walk (python E) (records self') (S fuel) parent []) as [l| |];
    cbn; [|done..].
  by rewrite fmap_app.
Qed.

Lemma lineage_extends_parent_lineage_witness :
  get_lineage 3 (PInt 3) (mkEnv Py3 "") (instance_of chain_store) =
  ((λ l, l ++ ["Azorhizobium"]) <$>
     result_of (get_lineage 2 (PInt 2) (mkEnv Py3 "") (instance_of chain_store)),
   instance_of chain_store, []).
Proof.
  eapply (lineage_extends_parent_lineage (mkEnv Py3 "")
            (instance_of chain_store) (instance_of chain_store) [] 2
            (PInt 3) 3 _ "2" 2 "Azorhizobium" "genus");
    reflexivity || discriminate.
Defined.

(** Inside a set of taxa closed under the parent link, none of them a
    root and each with a name and a rank, the walk cannot end. *)
Lemma walk_in_cycle py rs (inside : Z → Prop) :
  (∀ x, inside x →
     ∃ r p parent name rank,
       store_lookup x rs = Some r ∧ r !! "parent" = Some p ∧
       int_of_text py p = Return parent ∧ parent ≠ 0 ∧ inside parent ∧
       r !! "scientific_name" = Some name ∧ r !! "rank" = Some rank) →
  ∀ fuel t acc, inside t → walk py rs fuel t acc = OutOfFuel.
Proof.
  intros Hclosed. induction fuel as [|fuel IH]; intros t acc Ht; [done|].
  destruct (Hclosed t Ht) as (r & p & parent & name & rank &
                               Hr & Hp & Hparent & Hne & Hin & Hname & Hrank).
  rewrite walk_unfold, Hr, Hp, Hparent, decide_True, Hname, Hrank by done.
  by apply IH.
Qed.

(** X11. Inside a set of taxa closed under the parent link, none with
    parent 0 and each with a name and a rank, the recursion of the lineage
    walker never reaches its base case: no depth is enough, and neither
    [get_lineage] nor [get_lineage_and_rank] returns a lineage. *)
Theorem lineage_in_parent_cycle_never_returns
    E self (inside : Z → Prop) fuel taxon t :
  records self ≠ [] →
  (∀ x, inside x →
     ∃ r p parent name rank,
       store_lookup x (records self) = Some r ∧ r !! "parent" = Some p ∧
       int_of_text (python E) p = Return parent ∧ parent ≠ 0 ∧
       inside parent ∧
       r !! "scientific_name" = Some name ∧ r !! "rank" = Some rank) →
  py_int (python E) taxon = Return t →
  inside t →
  get_lineage fuel taxon E self = (OutOfFuel, self, []) ∧
  get_lineage_and_rank fuel taxon E self = (OutOfFuel, self, []).
Proof.
  intros Hne Hclosed Ht Hin.
  destruct fuel as [|fuel].
  { unfold get_lineage, get_lineage_and_rank. rewrite !bind_run.
    cbn [interpreter_version lift]. by rewrite Ht. }
  pose proof (ensure_loaded_nonempty E self Hne) as Hload.
  rewrite (get_lineage_loaded _ _ _ _ _ _ _ Ht Hload).
  rewrite (get_lineage_and_rank_loaded _ _ _ _ _ _ _ Ht Hload).
  by rewrite (walk_in_cycle _ _ inside Hclosed).
Qed.

Lemma lineage_in_parent_cycle_never_returns_witness :
  get_lineage 1000 (PInt 5) (mkEnv Py3 "") (instance_of loop_store) =
    (OutOfFuel, instance_of loop_store, []) ∧
  get_lineage_and_rank 1000 (PInt 5) (mkEnv Py3 "") (instance_of loop_store) =
    (OutOfFuel, instance_of loop_store, []).
Proof.
  apply (lineage_in_parent_cycle_never_returns (mkEnv Py3 "")
           (instance_of loop_store) (λ x, x = 5 ∨ x = 6) 1000 (PInt 5) 5).
  - discriminate.
  - intros x [-> | ->].
    + exists (mk_record [("id", "5"); ("parent", "6");
                         ("scientific_name", "Ouro"); ("rank", "genus")]),
        "6", 6, "Ouro", "genus".
      split_and!; try reflexivity; [discriminate|by right].
    + exists (mk_record [("id", "6"); ("parent", "5");
                         ("scientific_name", "Boros"); ("rank", "genus")]),
        "5", 5, "Boros", "genus".
      split_and!; try reflexivity; [discriminate|by left].
  - reflexivity.
  - by left.
Defined.

(* ------------------------------------------------------------------ *)
(** ** The edges of a family tree; queries on a loaded instance *)

(** *** The scan, whatever its outcome *)

Lemma select_children_run taxon E self keys :
  ∃ r, select_children taxon keys E self = (r, self, []) ∧
       ∀ cs, r = Return cs → cs = omap (child_of (records self) taxon) keys.
Proof.
  induction keys as [|k keys (r & IH & Hcs)].
  { exists (Return []). split; [done|]. by intros cs [= <-]. }
  cbn [select_children omap list_omap]. unfold_monad. unfold child_of at 1.
  destruct (store_lookup k (records self)) as [rec|] eqn:Hk;
    [|by eexists].
  cbn [mbind option_bind].
  destruct (rec !! "parent") as [p|] eqn:Hp; [|by eexists].
  destruct (decide (p = taxon)) as [->|Hne]; unfold_monad.
  - rewrite Hk, IH, decide_True by done.
    destruct r as [cs| |]; eexists; (split; [reflexivity|]); try done.
    intros ? [= <-]. by rewrite (Hcs cs).
  - rewrite IH. rewrite decide_False by congruence.
    destruct r as [cs| |]; eexists; (split; [reflexivity|]); try done.
Qed.

Lemma child_ids_run E self children :
  ∃ r, child_ids children E self = (r, self, []) ∧
       ∀ ids, r = Return ids →
         ids = omap (.!! "id") children ∧
         Forall (λ c : TaxonRecord, is_Some (c !! "id")) children.
Proof.
  induction children as [|c cs (r & IH & Hids)].
  { exists (Return []). split; [done|]. by intros ids [= <-]. }
  cbn [child_ids omap list_omap]. unfold_monad.
  destruct (c !! "id") as [i|] eqn:Hi; [|by eexists].
  rewrite IH.
  destruct r as [ids| |]; eexists; (split; [reflexivity|]); try done.
  intros ? [= <-]. destruct (Hids ids eq_refl) as [-> Hall].
  split; [done|]. constructor; [by eexists|done].
Qed.

Lemma get_children_run taxon E self :
  records self ≠ [] →
  ∃ r, get_children taxon E self = (r, self, []) ∧
       ∀ ids, r = Return ids →
         ∀ i, i ∈ ids → is_child_of (records self) taxon i.
Proof.
  intros Hne.
  rewrite (get_children_loaded taxon E self self []
             (ensure_loaded_nonempty E self Hne)), bind_run.
  destruct (select_children_run (py_str taxon) E self
              (store_keys (records self))) as (r1 & -> & Hcs).
  destruct r1 as [cs| |]; [|by eexists..].
  destruct (child_ids_run E self cs) as (r2 & -> & Hids).
  exists r2. split; [done|]. intros ids -> i Hi.
  destruct (Hids ids eq_refl) as [-> _]. rewrite (Hcs cs eq_refl) in Hi.
  apply list_elem_of_omap in Hi as (c & Hc & Hci).
  apply list_elem_of_omap in Hc as (k & _ & Hk). unfold child_of in Hk.
  destruct (store_lookup k (records self)) as [rec|] eqn:Hrec; cbn in Hk;
    [|done].
  case_decide; [|done]. injection Hk as <-. by exists k, rec.
Qed.

(** *** One round and the loop *)

Lemma expand_round_run E self children : ∀ new_children tree,
  records self ≠ [] →
  ∃ r, expand_round children new_children tree E self = (r, self, []) ∧
       ∀ new_children' tree', r = Return (new_children', tree') →
         ∃ edges,
           new_children' = new_children ++ edges.*2 ∧
           tree' = tree ++ edges ∧
           Forall (λ e, e.1 ∈ children ∧
                        ∃ i, e.2 = PStr i ∧ is_child_of (records self) e.1 i)
                  edges.
Proof.
  induction children as [|parent rest IH]; intros new_children tree Hne.
  { exists (Return (new_children, tree)). split; [done|].
    intros ? ? [= <- <-]. exists []. by rewrite !app_nil_r. }
  cbn [expand_round]. rewrite bind_run.
  destruct (get_children_run parent E self Hne) as (r1 & -> & Hids).
  destruct r1 as [ids| |]; [|by eexists..].
  destruct (IH (new_children ++ (PStr <$> ids))
              (tree ++ ((λ this, (parent, PStr this)) <$> ids)) Hne)
    as (r & -> & Hr).
  exists r. split; [done|]. intros nc' tree' ->.
  destruct (Hr nc' tree' eq_refl) as (edges & -> & -> & Hedges).
  exists (((λ this, (parent, PStr this)) <$> ids) ++ edges).
  rewrite fmap_app, <-!app_assoc, <-list_fmap_compose. split_and!; [done..|].
  apply Forall_app. split.
  - apply Forall_fmap, Forall_forall. intros i Hi. cbn. split.
    + apply list_elem_of_here.
    + exists i. split; [done|]. by apply (Hids ids).
  - eapply Forall_impl; [done|]. intros e [He ?]. split; [|done].
    by apply list_elem_of_further.
Qed.

Lemma edge_ok_mono rs root tree tree' e :
  tree ⊆ tree' → edge_ok rs root tree e → edge_ok rs root tree' e.
Proof.
  intros Hsub [[?|(gp & Hgp)] Hchild]; (split; [|done]); [by left|].
  right. exists gp. by apply Hsub.
Qed.

Lemma family_tree_loop_run E self root limits fuel : ∀ children tree,
  records self ≠ [] →
  (∀ c, c ∈ children → c = root ∨ ∃ gp, (gp, c) ∈ tree) →
  Forall (edge_ok (records self) root tree) tree →
  ∃ r out,
    family_tree_loop fuel limits children tree E self = (r, self, out) ∧
    ∀ tree', r = Return tree' →
      Forall (edge_ok (records self) root tree') tree'.
Proof.
  induction fuel as [|fuel IH]; intros children tree Hne Hfront Htree.
  { by exists OutOfFuel, []. }
  cbn [family_tree_loop]. destruct (decide (length children ≠ 0%nat)).
  2:{ exists (Return tree), []. split; [done|]. by intros ? [= <-]. }
  rewrite bind_run.
  destruct (expand_round_run E self children [] tree Hne) as (r1 & -> & Hr1).
  destruct r1 as [[new_children tree1]| |]; [|by do 2 eexists..].
  destruct (Hr1 _ _ eq_refl) as (edges & -> & -> & Hedges). cbn [app].
  destruct (IH (edges.*2) (tree ++ edges) Hne) as (r & out & Hrun & Hr).
  - intros c (e & -> & He)%list_elem_of_fmap. right. exists e.1.
    apply elem_of_app. right. by destruct e.
  - apply Forall_app. split.
    + eapply Forall_impl; [done|]. intros e. apply edge_ok_mono.
      intros x Hx. apply elem_of_app. by left.
    + eapply Forall_impl; [done|]. intros e [He Hchild]. split; [|done].
      destruct (Hfront _ He) as [?|(gp & Hgp)]; [by left|].
      right. exists gp. apply elem_of_app. by left.
  - rewrite bind_run.
    destruct (decide (limits < _)); cbn [print mret M_ret]; rewrite Hrun;
      by do 2 eexists.
Qed.

(** X12. When [_get_family_tree_uniprot] returns on a loaded instance,
    every edge [(parent, child)] of the tree links a record's id field
    (the child, as text) to a taxon whose text is that record's parent
    field, and the parent is the queried taxon or the child of another
    edge of the tree. *)
Theorem family_tree_edges_are_parent_child_links
    E self fuel taxon limits tree :
  records self ≠ [] →
  result_of (_get_family_tree_uniprot fuel taxon limits E self) = Return tree →
  ∀ parent child, (parent, child) ∈ tree →
    (parent = taxon ∨ ∃ grandparent, (grandparent, parent) ∈ tree) ∧
    ∃ i, child = PStr i ∧ is_child_of (records self) parent i.
Proof.
  intros Hne Hrun parent child Hin. unfold _get_family_tree_uniprot in Hrun.
  destruct (family_tree_loop_run E self taxon limits fuel [taxon] [] Hne)
    as (r & out & Heq & Hr).
  - intros c ->%list_elem_of_singleton. by left.
  - constructor.
  - rewrite Heq in Hrun. cbn in Hrun. subst r.
    specialize (Hr tree eq_refl). rewrite Forall_forall in Hr.
    apply (Hr (parent, child) Hin).
Qed.

Lemma family_tree_edges_are_parent_child_links_witness :
  (PStr "2" = PInt 1 ∨ ∃ grandparent, (grandparent, PStr "2") ∈
     [(PInt 1, PStr "2"); (PStr "2", PStr "3")]) ∧
  ∃ i, PStr "3" = PStr i ∧ is_child_of chain_store (PStr "2") i.
Proof.
  apply (family_tree_edges_are_parent_child_links (mkEnv Py3 "")
           (instance_of chain_store) 4 (PInt 1) 100
           [(PInt 1, PStr "2"); (PStr "2", PStr "3")]).
  - discriminate.
  - reflexivity.
  - apply list_elem_of_further, list_elem_of_here.
Defined.

(** *** Queries leave a loaded instance alone *)

(** X13. On an instance whose store is not empty the queries are
    read-only: however they end, [get_children], [get_lineage],
    [get_lineage_and_rank] and [_get_family_tree_uniprot] leave the store,
    the verbosity and the shared default list as they were. *)
Theorem queries_do_not_change_a_loaded_instance E self fuel taxon limits :
  records self ≠ [] →
  state_of (get_children taxon E self) = self ∧
  state_of (get_lineage fuel taxon E self) = self ∧
  state_of (get_lineage_and_rank fuel taxon E self) = self ∧
  state_of (_get_family_tree_uniprot fuel taxon limits E self) = self.
Proof.
  intros Hne. split_and!.
  - by destruct (get_children_run taxon E self Hne) as (r & -> & _).
  - apply isolated_same_state; [apply isolated_get_lineage|].
    destruct fuel as [|fuel].
    + unfold get_lineage. rewrite !bind_run. cbn [interpreter_version lift].
      by destruct (py_int (python E) taxon).
    + rewrite get_lineage_run, (ensure_loaded_nonempty E self Hne).
      by destruct (py_int (python E) taxon).
  - apply isolated_same_state; [apply isolated_get_lineage_and_rank|].
    destruct fuel as [|fuel].
    + unfold get_lineage_and_rank. rewrite !bind_run.
      cbn [interpreter_version lift].
      by destruct (py_int (python E) taxon).
    + rewrite get_lineage_and_rank_run, (ensure_loaded_nonempty E self Hne).
      by destruct (py_int (python E) taxon).
  - unfold _get_family_tree_uniprot.
    destruct (family_tree_loop_run E self taxon limits fuel [taxon] [] Hne)
      as (r & out & -> & _); [|constructor|done].
    intros c ->%list_elem_of_singleton. by left.
Qed.

Lemma queries_do_not_change_a_loaded_instance_witness :
  let E := mkEnv Py3 "" in
  let self := instance_of chain_store in
  state_of (get_children (PInt 3) E self) = self ∧
  state_of (get_lineage 3 (PInt 3) E self) = self ∧
  state_of (get_lineage_and_rank 3 (PInt 3) E self) = self ∧
  state_of (_get_family_tree_uniprot 3 (PInt 3) 100 E self) = self.
Proof.
  apply (queries_do_not_change_a_loaded_instance (mkEnv Py3 "")
           (instance_of chain_store) 3 (PInt 3) 100).
  discriminate.
Defined.

(* ------------------------------------------------------------------ *)
(** ** The first query on an empty instance *)

Lemma ensure_loaded_empty E self :
  records self = [] → ensure_loaded E self = load_records E self.
Proof.
  intros Hnil. unfold ensure_loaded. rewrite bind_run. unfold get_records.
  rewrite Hnil. cbn [length]. rewrite decide_True by done.
  by destruct (load_records E self) as [[r s] o].
Qed.

Lemma bind_after {A B} (m : M A) (f : A → M B) E self self' out :
  m E self = after out (m E self') →
  (m ≫= f) E self = after out ((m ≫= f) E self').
Proof.
  intros Hm. rewrite !bind_run, Hm.
  destruct (m E self') as [[[a|e|] s] o]; cbn; [|done..].
  destruct (f a E s) as [[r s'] o']. unfold after. cbn. by rewrite app_assoc.
Qed.

Lemma ensure_loaded_after E self self' out :
  records self = [] →
  load_records E self = (Return tt, self', out) →
  records self' ≠ [] →
  ensure_loaded E self = after out (ensure_loaded E self').
Proof.
  intros Hnil Hload Hne.
  rewrite (ensure_loaded_nonempty E self' Hne), ensure_loaded_empty, Hload
    by done.
  unfold after. cbn. by rewrite app_nil_r.
Qed.

(** X14. The first query on an empty instance, when the load succeeds
    with a store that is not empty, is the load followed by the same query
    on the loaded instance: same result, same final state, the output of
    the load first. For the two lineage queries this needs [int(taxon)] to
    succeed, since it is evaluated before the load. *)
Theorem first_query_loads_then_answers E self self' out fuel taxon limits :
  records self = [] →
  load_records E self = (Return tt, self', out) →
  records self' ≠ [] →
  get_children taxon E self = after out (get_children taxon E self') ∧
  _get_family_tree_uniprot (S fuel) taxon limits E self =
    after out (_get_family_tree_uniprot (S fuel) taxon limits E self') ∧
  ((∃ t, py_int (python E) taxon = Return t) →
   get_lineage (S fuel) taxon E self =
     after out (get_lineage (S fuel) taxon E self') ∧
   get_lineage_and_rank (S fuel) taxon E self =
     after out (get_lineage_and_rank (S fuel) taxon E self')).
Proof.
  intros Hnil Hload Hne.
  pose proof (ensure_loaded_after E self self' out Hnil Hload Hne) as Hfirst.
  assert (∀ t, get_children t E self = after out (get_children t E self'))
    as Hchildren by (intros t; by apply bind_after).
  split_and!.
  - done.
  - unfold _get_family_tree_uniprot. cbn [family_tree_loop].
    rewrite decide_True by done. apply bind_after.
    cbn [expand_round]. by apply bind_after.
  - intros [t Ht].
    rewrite !get_lineage_run, !get_lineage_and_rank_run, Ht.
    rewrite (ensure_loaded_nonempty E self' Hne), ensure_loaded_empty, Hload
      by done.
    unfold after. cbn. by rewrite !app_nil_r.
Qed.

Lemma first_query_loads_then_answers_witness :
  let E := mkEnv Py3 corpus_chain in
  let self := instance_of [] in
  let self' := state_of (load_records E self) in
  let out := output_of (load_records E self) in
  get_children (PInt 1) E self = after out (get_children (PInt 1) E self') ∧
  _get_family_tree_uniprot 4 (PInt 1) 100 E self =
    after out (_get_family_tree_uniprot 4 (PInt 1) 100 E self') ∧
  get_lineage 4 (PInt 3) E self = after out (get_lineage 4 (PInt 3) E self') ∧
  get_lineage_and_rank 4 (PInt 3) E self =
    after out (get_lineage_and_rank 4 (PInt 3) E self').
Proof.
  cbv zeta.
  pose proof (first_query_loads_then_answers (mkEnv Py3 corpus_chain)
    (instance_of [])
    (state_of (load_records (mkEnv Py3 corpus_chain) (instance_of [])))
    (output_of (load_records (mkEnv Py3 corpus_chain) (instance_of [])))
    3) as H.
  split_and!.
  - apply (H (PInt 1) 100); [reflexivity|by vm_compute|by vm_compute].
  - apply (H (PInt 1) 100); [reflexivity|by vm_compute|by vm_compute].
  - apply (H (PInt 3) 100); [reflexivity|by vm_compute|by vm_compute|by exists 3].
  - apply (H (PInt 3) 100); [reflexivity|by vm_compute|by vm_compute|by exists 3].
Defined.

(* ------------------------------------------------------------------ *)
(** ** Printing a lineage *)

Lemma string_app_nil_r (a : string) : a +:+ "" = a.
Proof. induction a as [|x a IH]; [done|]. by rewrite string_app_cons, IH. Qed.

Lemma all_chars_app p (a b : string) :
  all_chars p (a +:+ b) = all_chars p a && all_chars p b.
Proof.
  induction a as [|x a IH]; [done|]. rewrite string_app_cons. cbn.
  by rewrite IH, andb_assoc.
Qed.

Lemma rev_app_append (a b : string) :
  String.rev_app a b = String.rev a +:+ b.
Proof.
  unfold String.rev. revert b. induction a as [|x a IH]; intros b; [done|].
  cbn. rewrite (IH (String x b)), (IH (String x "")).
  by rewrite string_app_assoc.
Qed.

Lemma not_newline_prefix c s :
  not_newline c = true → String.prefix newline (String c s) = false.
Proof.
  intros Hc. unfold newline.
  change (String.prefix (String "010" "") (String c s))
    with (if ascii_dec "010" c then String.prefix "" s else false).
  destruct (ascii_dec "010" c) as [<-|]; [|done]. by vm_compute in Hc.
Qed.

Lemma newline_prefix s : String.prefix newline (String "010" s) = true.
Proof.
  unfold newline.
  change (String.prefix (String "010" "") (String "010" s))
    with (if ascii_dec "010" "010" then String.prefix "" s else false).
  destruct (ascii_dec "010" "010"); [|done]. by destruct s.
Qed.

(** Splitting at line ends takes a first line without a line end off the
    text. *)
Lemma split_line line rest : ∀ cur,
  all_chars not_newline line = true →
  split_go newline 0 cur (line +:+ newline +:+ rest) =
  (String.rev cur +:+ line) :: split_go newline 0 "" rest.
Proof.
  induction line as [|c line IH]; intros cur Hline.
  - change ("" +:+ newline +:+ rest) with (String "010" rest).
    cbn [split_go]. by rewrite newline_prefix, string_app_nil_r.
  - cbn in Hline. apply andb_true_iff in Hline as [Hc Hline].
    rewrite string_app_cons. cbn [split_go].
    rewrite (not_newline_prefix c _ Hc), (IH _ Hline).
    unfold String.rev at 1. cbn. rewrite rev_app_append.
    by rewrite string_app_assoc.
Qed.

Lemma spaces_no_newline n : all_chars not_newline (spaces n) = true.
Proof. induction n as [|n IH]; [done|]. cbn. by rewrite IH. Qed.

Lemma str_loop_names names : ∀ i txt,
  str_loop i (EntryText <$> names) txt = Return (txt +:+ stairs i names).
Proof.
  induction names as [|name names IH]; intros i txt; cbn.
  - by rewrite string_app_nil_r.
  - rewrite IH. by rewrite !string_app_assoc.
Qed.

Lemma split_stairs names : ∀ i,
  Forall (λ name, all_chars not_newline name = true) names →
  split newline (stairs i names) =
  imap (λ j name, spaces (i + j) +:+ name) names ++ [""].
Proof.
  unfold split.
  induction names as [|name names IH]; intros i Hnames; [done|].
  apply Forall_cons in Hnames as [Hname Hnames].
  cbn [stairs]. rewrite <-string_app_assoc, split_line.
  2:{ by rewrite all_chars_app, spaces_no_newline, Hname. }
  rewrite (IH (S i) Hnames), imap_cons, Nat.add_0_r. cbn. do 2 f_equal.
  apply imap_ext. intros j x _. cbn. by rewrite Nat.add_succ_r.
Qed.

(** X15. For names without line ends, [str] of a [Lineage] built from
    them has one line per name, in order, the name at index [i] behind
    [i] spaces, and ends with a line end. *)
Theorem lineage_of_names_prints_as_stairs names :
  Forall (λ name, all_chars not_newline name = true) names →
  ∃ txt,
    Lineage_str (Lineage_init (EntryText <$> names)) = Return txt ∧
    split newline txt = imap (λ i name, spaces i +:+ name) names ++ [""].
Proof.
  intros Hnames. exists (stairs 0 names). split.
  - unfold Lineage_str, Lineage_init. cbn [lineage].
    by rewrite str_loop_names.
  - by rewrite split_stairs.
Qed.

Lemma lineage_of_names_prints_as_stairs_witness :
  ∃ txt,
    Lineage_str (Lineage_init (EntryText <$> ["Bacteria"; "Azorhizobium"])) =
      Return txt ∧
    split newline txt =
      imap (λ i name, spaces i +:+ name) ["Bacteria"; "Azorhizobium"] ++ [""].
Proof.
  apply (lineage_of_names_prints_as_stairs ["Bacteria"; "Azorhizobium"]).
  by repeat constructor.
Defined.



Corollary lineage_of_pairs_cannot_be_printed (items : list lineage_item) :
  items ≠ [] →
  Lineage_str (Lineage_init (pair_entry <$> items)) =
  Raise (TypeError "not all arguments converted during string formatting").
Proof. by destruct items. Qed.
